(** * Artifact lifecycle of the Playwright test suite

    A shallow embedding of the artifact policy resolver
    ([pytest_plugins/options.py]), the filename helpers
    ([helpers/files.py]), the video finalizer ([helpers/media.py]) and the
    [context] / [page] fixtures ([pytest_plugins/playwright.py]), with the
    properties of the design notes proved over it.

    Conventions.
    - A Python [str] is a [string]; its characters are the code points
      below 256 (the Latin-1 block), which is what the 8-bit [ascii] type
      holds.  [str.strip] and [str.lower] are given for exactly that range.
    - [Optional[T]] is [option T]; a Python [set] of strings is a
      [gset string]; the instance dictionary of an object that receives
      attributes through [setattr] is a [gmap string _].
    - Calls into Playwright, allure and the file system are events of a
      trace; whether such a call raises is decided by the environment. *)

From Stdlib Require Import Ascii String NArith.
From stdpp Require Import base decidable option list strings gmap.

Local Open Scope string_scope.
Local Open Scope list_scope.
Local Open Scope nat_scope.

(** ** Python string primitives *)

Module Str.

(** [str.isspace] on one code point below 256: TAB..CR, FS..US, SPACE,
    NEL (0x85) and NBSP (0xA0). *)
Definition isspace (c : ascii) : bool :=
  let n := N_of_ascii c in
  ((9 <=? n) && (n <=? 13) || (28 <=? n) && (n <=? 32)
   || (n =? 133) || (n =? 160))%N.

(** [str.lower] on one code point below 256: A..Z and the accented capitals
    0xC0..0xDE (the multiplication sign 0xD7 apart) move up by 32. *)
Definition lower_char (c : ascii) : ascii :=
  let n := N_of_ascii c in
  if ((65 <=? n) && (n <=? 90)
      || (192 <=? n) && (n <=? 222) && negb (n =? 215))%N
  then ascii_of_N (n + 32)
  else c.

Fixpoint lower (s : string) : string :=
  match s with
  | EmptyString => EmptyString
  | String c s' => String (lower_char c) (lower s')
  end.

Fixpoint lstrip (s : string) : string :=
  match s with
  | EmptyString => EmptyString
  | String c s' => if isspace c then lstrip s' else s
  end.

Fixpoint rstrip (s : string) : string :=
  match s with
  | EmptyString => EmptyString
  | String c s' =>
      match rstrip s' with
      | EmptyString => if isspace c then EmptyString else String c EmptyString
      | r => String c r
      end
  end.

(** [s.strip()] with no argument. *)
Definition strip (s : string) : string := rstrip (lstrip s).

(** Truth value of a [str]: only the empty string is falsy. *)
Definition truthy (s : string) : bool :=
  match s with EmptyString => false | String _ _ => true end.

End Str.

(** ** [pytest_plugins/options.py] *)

Definition TRUTHY_VALUES : gset string :=
  {[ "1"; "true"; "yes"; "on"; "enabled" ]}.
Definition FALSY_VALUES : gset string :=
  {[ "0"; "false"; "no"; "off"; "disabled" ]}.
Definition VIDEO_KEEP_VALUES : gset string :=
  {[ "all"; "always"; "keep" ]}.
Definition TRACE_MODES : gset string :=
  {[ "off"; "on"; "retain-on-failure" ]}.

(** [x in S] for a set of strings. *)
Definition py_in (x : string) (S : gset string) : bool := bool_decide (x ∈ S).

Record VideoPreferences := {
  record : bool;
  keep_on_pass : bool
}.

Record TracePreferences := {
  enabled : bool;
  retain_on_failure : bool
}.

Record ArtifactPreferences := {
  video : VideoPreferences;
  trace : TracePreferences
}.

Definition _parse_bool (value : option string) : option bool :=
  match value with
  | None => None
  | Some value =>
      let normalized := Str.lower (Str.strip value) in
      if py_in normalized TRUTHY_VALUES then Some true
      else if py_in normalized FALSY_VALUES then Some false
      else None
  end.

(** What [pytestconfig.getoption] and [os.getenv] hand to the resolvers. *)
Record pytestconfig := {
  opt_video : bool;                 (* --video *)
  opt_keep_video_on_pass : bool;    (* --keep-video-on-pass *)
  opt_pw_trace : string             (* --pw-trace *)
}.

Record environ := {
  PLAYWRIGHT_VIDEO : option string;
  PLAYWRIGHT_KEEP_VIDEO_ON_PASS : option string;
  PLAYWRIGHT_TRACE : option string
}.

(** [if env:] on an [Optional[str]]: the body runs for a non-empty string. *)
Definition if_set {A} (env : option string) (body : string → A) (skip : A) : A :=
  match env with
  | Some s => if Str.truthy s then body s else skip
  | None => skip
  end.

Definition _resolve_video_preferences (cfg : pytestconfig) (env : environ)
  : VideoPreferences :=
  let record0 := opt_video cfg in
  let keep0 := opt_keep_video_on_pass cfg in
  let '(record1, keep1) :=
    if_set (PLAYWRIGHT_VIDEO env)
      (λ env_video,
         let normalized := Str.lower (Str.strip env_video) in
         match _parse_bool (Some normalized) with
         | Some parsed => (parsed, keep0)
         | None =>
             if py_in normalized VIDEO_KEEP_VALUES then (true, true)
             else (true, keep0)
         end)
      (record0, keep0) in
  let keep2 :=
    match _parse_bool (PLAYWRIGHT_KEEP_VIDEO_ON_PASS env) with
    | Some keep_override => keep_override
    | None => keep1
    end in
  {| record := record1; keep_on_pass := keep2 |}.

(** The local variable [mode] of [_resolve_trace_preferences] when the
    function reaches its last three lines. *)
Definition trace_mode (cfg : pytestconfig) (env : environ) : string :=
  let mode := opt_pw_trace cfg in
  if_set (PLAYWRIGHT_TRACE env)
    (λ env_trace,
       let normalized := Str.lower (Str.strip env_trace) in
       if py_in normalized TRACE_MODES then normalized
       else
         match _parse_bool (Some normalized) with
         | Some true =>
             if py_in normalized VIDEO_KEEP_VALUES
             then "retain-on-failure" else "on"
         | _ => mode
         end)
    mode.

Definition _resolve_trace_preferences (cfg : pytestconfig) (env : environ)
  : TracePreferences :=
  let mode := trace_mode cfg env in
  {| enabled := negb (String.eqb mode "off");
     retain_on_failure := String.eqb mode "retain-on-failure" |}.

Definition artifact_preferences (cfg : pytestconfig) (env : environ)
  : ArtifactPreferences :=
  {| video := _resolve_video_preferences cfg env;
     trace := _resolve_trace_preferences cfg env |}.

(** ** [helpers/files.py] *)

(** The fragment of [re] that [safe_filename] uses: a pattern made of one
    character class, and [re.sub] with a literal replacement. *)
Module Re.

Inductive class_item :=
| Range (lo hi : ascii)      (* lo-hi *)
| Lit (c : ascii).           (* a single character *)

Record char_class := {
  negated : bool;            (* the class starts with ^ *)
  items : list class_item
}.

Definition item_matches (it : class_item) (c : ascii) : bool :=
  match it with
  | Range lo hi =>
      ((N_of_ascii lo <=? N_of_ascii c) && (N_of_ascii c <=? N_of_ascii hi))%N
  | Lit x => (N_of_ascii c =? N_of_ascii x)%N
  end.

Definition class_matches (cls : char_class) (c : ascii) : bool :=
  xorb (negated cls) (existsb (λ it, item_matches it c) (items cls)).

(** [re.sub(cls, repl, text)]: the matches of a one-character pattern are
    the characters of the class, each replaced where it stands. *)
Fixpoint sub (cls : char_class) (repl : string) (text : string) : string :=
  match text with
  | EmptyString => EmptyString
  | String c rest =>
      (if class_matches cls c then repl else String c EmptyString)
        +:+ sub cls repl rest
  end.

End Re.

(** The class [A-Za-z0-9._-] and the pattern [[^A-Za-z0-9._-]]. *)
Definition filename_class : Re.char_class :=
  {| Re.negated := false;
     Re.items := [Re.Range "A" "Z"; Re.Range "a" "z"; Re.Range "0" "9";
                  Re.Lit "."; Re.Lit "_"; Re.Lit "-"] |}.

Definition unsafe_pattern : Re.char_class :=
  {| Re.negated := true; Re.items := Re.items filename_class |}.

Definition safe_filename (text : string) : string :=
  Re.sub unsafe_pattern "_" text.

(** Membership in [A-Za-z0-9._-], written out on the code point. *)
Definition allowed (c : ascii) : bool :=
  let n := N_of_ascii c in
  ((65 <=? n) && (n <=? 90) || (97 <=? n) && (n <=? 122)
   || (48 <=? n) && (n <=? 57)
   || (n =? 46) || (n =? 95) || (n =? 45))%N.

(** A [pathlib.Path] as the list of its parts.  [p / name] appends a part;
    every name joined in this code is a single relative component
    (["traces"], ["videos"], ["screenshots"], a sanitized file name with its
    suffix). *)
Definition Path := list string.
Definition path_join (p : Path) (name : string) : Path := (p ++ [name])%list.
Definition parent (p : Path) : Path := removelast p.

(** ** Effects: calls to the outside, exceptions, the context object *)

(** The handle that [page.video] returns. *)
Inductive Video := Recording (id : N).

Global Instance Video_eq_dec : EqDecision Video.
Proof. solve_decision. Defined.

(** [allure.attachment_type] *)
Inductive attachment_type := PNG | HTML | WEBM | TEXT.

(** Keyword arguments of [browser.new_context]. *)
Record context_options := {
  record_video_dir : option Path;
  record_video_size : option (N * N)      (* width, height *)
}.

(** The calls that leave the program. *)
Inductive call :=
| mkdir (p : Path)             (* Path.mkdir(parents=True, exist_ok=True) *)
| browser_new_context (opts : context_options)
| context_set_default_timeout (ms : N)
| context_set_default_navigation_timeout (ms : N)
| tracing_start                (* screenshots, snapshots and sources on *)
| tracing_stop (path : option Path)
| context_close
| context_new_page
| page_screenshot (path : Path)                  (* full_page=True *)
| page_content
| page_video                                     (* the property page.video *)
| page_close
| allure_attach (body name : string) (kind : attachment_type)
| allure_attach_file (source : Path) (name : string) (kind : attachment_type)
| video_save_as (v : Video) (path : Path)
| video_delete (v : Video).

(** An instance of [Exception]; [str(exc)] is its message. *)
Inductive exn := Exception (message : string).
Definition str (e : exn) : string := let 'Exception m := e in m.

Inductive level := WARNING | ERROR.

Inductive event :=
| Returned (c : call)                    (* the call was made and returned *)
| Raised (c : call) (e : exn)            (* the call was made and raised *)
| Logged (lvl : level) (fmt : string) (args : list string).

(** The environment of a run: which calls raise (it may depend on all that
    happened before), the directory [get_app_config(None).artifacts_dir],
    and what the page returns. *)
Record world := {
  raises : list event → call → option exn;
  artifacts_dir : Path;
  screenshot_png : string;
  dom_html : string;
  video_of_page : option Video
}.

(** The attributes that the fixtures store on the [BrowserContext] object
    with [setattr], and the trace of events so far. *)
Record state := {
  attrs : gmap string bool;
  events : list event
}.

Inductive result (A : Type) :=
| Ok (a : A)
| Raise (e : exn).
Arguments Ok {A} a.
Arguments Raise {A} e.

Definition M (A : Type) : Type := world → state → result A * state.

Global Instance M_ret : MRet M := λ A a _ s, (Ok a, s).

Global Instance M_bind : MBind M := λ A B k m w s,
  match m w s with
  | (Ok a, s') => k a w s'
  | (Raise e, s') => (Raise e, s')
  end.

Definition raise {A} (e : exn) : M A := λ _ s, (Raise e, s).

(** [try: m / except Exception as exc: handler exc] *)
Definition try_except {A} (m : M A) (handler : exn → M A) : M A := λ w s,
  match m w s with
  | (Ok a, s') => (Ok a, s')
  | (Raise e, s') => handler e w s'
  end.

(** The outcome of [m] as a value. *)
Definition attempt {A} (m : M A) : M (result A) := λ w s,
  let '(r, s') := m w s in (Ok r, s').

Definition emit (ev : event) : M unit := λ _ s,
  (Ok (), {| attrs := attrs s; events := events s ++ [ev] |}).

Definition do_call (c : call) : M unit := λ w s,
  match raises w (events s) c with
  | Some e => (Raise e, {| attrs := attrs s; events := events s ++ [Raised c e] |})
  | None => (Ok (), {| attrs := attrs s; events := events s ++ [Returned c] |})
  end.

Definition log (lvl : level) (fmt : string) (args : list string) : M unit :=
  emit (Logged lvl fmt args).

Definition ask {A} (f : world → A) : M A := λ w s, (Ok (f w), s).

(** A call used as a statement: its value is dropped. *)
Definition discard {A} (m : M A) : M unit := m;; mret ().

(** [setattr(context, name, value)] and [getattr(context, name, default)] *)
Definition setattr (name : string) (value : bool) : M unit := λ _ s,
  (Ok (), {| attrs := <[name := value]> (attrs s); events := events s |}).

Definition getattr (name : string) (dflt : bool) : M bool := λ _ s,
  (Ok (default dflt (attrs s !! name)), s).

(** ** [helpers/files.py], the part with effects *)

Definition ensure_dir (path : Path) : M Path :=
  do_call (mkdir path);; mret path.

(** [get_app_config] is cached; its [artifacts_dir] is the world's. *)
Definition get_artifact_path (artifact_type : string) : M Path :=
  artifacts ← ask artifacts_dir;
  mret (path_join artifacts artifact_type).

(** ** [helpers/media.py] *)

Definition finalize_video_artifact (video : option Video) (nodeid : string)
    (keep attach_on_keep : bool) : M (option Path) :=
  match video with
  | None => mret None
  | Some v =>
      if keep then
        videos ← get_artifact_path "videos";
        let video_path := path_join videos (safe_filename nodeid +:+ ".webm") in
        ensure_dir (parent video_path);;
        do_call (video_save_as v video_path);;
        (if attach_on_keep
         then do_call (allure_attach_file video_path "video" WEBM)
         else mret ());;
        do_call (video_delete v);;
        mret (Some video_path)
      else
        do_call (video_delete v);;
        mret None
  end.

(** ** [helpers/qa.py] *)

Definition attach_screenshot_to_allure (screenshot_bytes name : string) : M unit :=
  do_call (allure_attach screenshot_bytes name PNG).

Definition attach_html_to_allure (html name : string) : M unit :=
  do_call (allure_attach html name HTML).

(** ** [pytest_plugins/playwright.py] *)

(** One context per test: the object whose attributes [attrs] holds. *)
Inductive BrowserContext := the_context.

(** A phase report that the reporting plugin stored on the test item; a
    field is [None] when the object has no such attribute. *)
Record TestReport := {
  failed : option bool;
  skipped : option bool;
  outcome : option string
}.

(** [request.node]: [rep_<when>] is [None] when the attribute is absent. *)
Record request := {
  nodeid : string;
  name : string;
  rep_setup : option TestReport;
  rep_call : option TestReport;
  rep_teardown : option TestReport
}.

Definition _trace_path (nodeid : string) : M Path :=
  traces ← get_artifact_path "traces";
  mret (path_join traces (safe_filename nodeid +:+ ".zip")).

(** The [finally] block of the [context] fixture, with the locals
    [context] and [tracing_started] of the generator frame. *)
Definition context_finally (req : request) (context : option BrowserContext)
    (tracing_started : bool) : M unit :=
  match context with
  | None => mret ()
  | Some _ =>
      trace_enabled ← getattr "trace_enabled" false;
      retain_on_failure ← getattr "trace_retain_on_failure" false;
      failed_any ← getattr "last_failed" false;
      (if trace_enabled && tracing_started then
         try_except
           (if retain_on_failure && negb failed_any then
              do_call (tracing_stop None)
            else
              trace_path ← _trace_path (nodeid req);
              do_call (tracing_stop (Some trace_path)))
           (λ exc, log WARNING "Failed to stop tracing for %s: %s"
                     [nodeid req; str exc])
       else mret ());;
      try_except
        (do_call context_close)
        (λ exc, log WARNING "Failed to close context for %s: %s"
                  [nodeid req; str exc])
  end.

(** The [context] fixture up to its [yield].  The value is the pair of
    locals [(context, tracing_started)] at the [yield], or [None] when the
    generator returns without yielding ([new_context] raised, and the
    [return] of the [finally] block dropped the exception).  An exception
    after the context exists runs the [finally] block and goes on. *)
Definition context_setup (prefs : ArtifactPreferences) (req : request)
  : M (option (BrowserContext * bool)) :=
  let video_prefs := video prefs in
  let trace_prefs := trace prefs in
  traces ← get_artifact_path "traces";
  ensure_dir traces;;
  context_options ←
    (if record video_prefs then
       videos ← get_artifact_path "videos";
       video_dir ← ensure_dir videos;
       mret {| record_video_dir := Some video_dir;
               record_video_size := Some (1280, 720)%N |}
     else mret {| record_video_dir := None; record_video_size := None |});
  created ← attempt (do_call (browser_new_context context_options));
  match created with
  | Raise _ => mret None
  | Ok _ =>
      try_except
        (setattr "record_video_enabled" (record video_prefs);;
         setattr "keep_video_on_pass" (keep_on_pass video_prefs);;
         setattr "trace_enabled" (enabled trace_prefs);;
         setattr "trace_retain_on_failure" (retain_on_failure trace_prefs);;
         setattr "last_failed" false;;
         do_call (context_set_default_timeout 5000);;
         do_call (context_set_default_navigation_timeout 5000);;
         tracing_started ←
           (if enabled trace_prefs
            then do_call tracing_start;; mret true
            else mret false);
         mret (Some (the_context, tracing_started)))
        (λ exc, context_finally req (Some the_context) false;; raise exc)
  end.

Definition _is_failed (rep : TestReport) : bool :=
  default false (failed rep).

Definition _is_skipped (rep : TestReport) : bool :=
  default false (skipped rep) || String.eqb (default "" (outcome rep)) "skipped".

(** [(rep for rep in (rep_setup, rep_call, rep_teardown) if rep is not None)] *)
Definition reports (req : request) : list TestReport :=
  omap id [rep_setup req; rep_call req; rep_teardown req].

Definition failed_any (req : request) : bool := existsb _is_failed (reports req).
Definition skipped_any (req : request) : bool := existsb _is_skipped (reports req).
Definition capture_needed (req : request) : bool := failed_any req || skipped_any req.

(** The two capture blocks under [if capture_needed:]. *)
Definition capture_diagnostics (req : request) : M unit :=
  try_except
    (screenshots ← get_artifact_path "screenshots";
     screenshots_dir ← ensure_dir screenshots;
     let screenshot_path :=
       path_join screenshots_dir (safe_filename (nodeid req) +:+ ".png") in
     do_call (page_screenshot screenshot_path);;
     screenshot ← ask screenshot_png;
     attach_screenshot_to_allure screenshot ("screenshot-" +:+ name req))
    (λ exc, log ERROR "Failed to capture screenshot: %s" [str exc]);;
  try_except
    (do_call page_content;;
     html ← ask dom_html;
     attach_html_to_allure html ("dom-" +:+ name req +:+ ".html"))
    (λ exc, log ERROR "Failed to capture HTML: %s" [str exc]).

(** The [page] fixture: before and after its [yield]. *)
Definition page_setup : M unit := do_call context_new_page.

Definition page_teardown (req : request) : M unit :=
  (if capture_needed req then capture_diagnostics req else mret ());;
  video_obj ←
    try_except (do_call page_video;; ask video_of_page) (λ _, mret None);
  try_except
    (do_call page_close)
    (λ exc, log WARNING "Error closing page: %s" [str exc]);;
  setattr "last_failed" (failed_any req);;
  getattr "record_video_enabled" false ≫= λ record_video_enabled : bool,
  getattr "keep_video_on_pass" false ≫= λ keep_on_pass : bool,
  if record_video_enabled then
    let keep_video := failed_any req || skipped_any req || keep_on_pass in
    let attach_video := failed_any req || skipped_any req in
    discard (finalize_video_artifact video_obj (nodeid req) keep_video attach_video)
  else if bool_decide (is_Some video_obj) then
    discard (finalize_video_artifact video_obj (nodeid req) false false)
  else mret ().

(** ** The test runner

    pytest finalizes fixtures in the reverse order of their setup and runs
    every finalizer even when an earlier one raised; the first exception is
    raised again at the end.  [page] requests [context], so the [page]
    fixture is finalized first. *)
Definition then_finalize (first second : M unit) : M unit :=
  r ← attempt first;
  second;;
  match r with
  | Ok _ => mret ()
  | Raise e => raise e
  end.

Definition fixtures_teardown (req : request) (tracing_started : bool) : M unit :=
  then_finalize (page_teardown req)
                (context_finally req (Some the_context) tracing_started).

(** Setup of both fixtures for a test that takes [page], then their
    teardown; the test body lies between the two and is seen here only
    through the reports of [req]. *)
Definition fixtures_lifecycle (prefs : ArtifactPreferences) (req : request)
  : M unit :=
  yielded ← context_setup prefs req;
  match yielded with
  | None => raise (Exception "context did not yield a value")
  | Some (_, tracing_started) =>
      page_ready ← attempt page_setup;
      match page_ready with
      | Raise e =>
          context_finally req (Some the_context) tracing_started;; raise e
      | Ok _ => fixtures_teardown req tracing_started
      end
  end.

(** Running a computation from an empty context object and an empty trace. *)
Definition initial : state := {| attrs := ∅; events := [] |}.
Definition run {A} (m : M A) (w : world) : result A * list event :=
  let '(r, s) := m w initial in (r, events s).

(** A world in which no call raises. *)
Definition calm (artifacts : Path) (v : option Video) : world :=
  {| raises := λ _ _, None;
     artifacts_dir := artifacts;
     screenshot_png := "<png>";
     dom_html := "<html>";
     video_of_page := v |}.

(** ** Vocabulary of the properties *)

(** The last part of C10 read to the letter: [retain_on_failure] holds
    only if the CLI value or the environment value is the very string
    retain-on-failure. *)
Definition retain_only_if_literal (cfg : pytestconfig) (env : environ) : Prop :=
  retain_on_failure (_resolve_trace_preferences cfg env) = true →
  opt_pw_trace cfg = "retain-on-failure" ∨
  PLAYWRIGHT_TRACE env = Some "retain-on-failure".

(** C3 as the design notes word it: without a call report, a skipped
    report or a failed setup makes [skipped_any] true. *)
Definition setup_failure_counts_as_skipped (req : request) : Prop :=
  rep_call req = None →
  (∃ rep, rep ∈ reports req ∧ _is_skipped rep = true) ∨
  (∃ rep, rep_setup req = Some rep ∧ _is_failed rep = true) →
  skipped_any req = true.

(** The state after [δ] more events. *)
Definition add (s : state) (δ : list event) : state :=
  {| attrs := attrs s; events := events s ++ δ |}.

(** [getattr(context, name, False)] read off a state. *)
Definition flag (s : state) (name : string) : bool :=
  default false (attrs s !! name).

(** The calls that [finalize_video_artifact] makes. *)
Definition finalizer_call (c : call) : bool :=
  match c with
  | mkdir _ | video_save_as _ _ | allure_attach_file _ _ _ | video_delete _ => true
  | _ => false
  end.

(** The finalizer's calls return normally in [w]. *)
Definition finalizer_calls_return (w : world) : Prop :=
  ∀ history c, finalizer_call c = true → raises w history c = None.

(** How often [v] was saved, and how often it was deleted, in a trace. *)
Definition is_save (v : Video) (ev : event) : bool :=
  match ev with
  | Returned (video_save_as v' _) => bool_decide (v' = v)
  | _ => false
  end.

Definition is_delete (v : Video) (ev : event) : bool :=
  match ev with
  | Returned (video_delete v') => bool_decide (v' = v)
  | _ => false
  end.

Definition saves (v : Video) (δ : list event) : nat :=
  length (List.filter (is_save v) δ).
Definition deletes (v : Video) (δ : list event) : nat :=
  length (List.filter (is_delete v) δ).

(** C2 as the design notes word it.  A handle is persisted when it was
    saved, once; the [delete] that follows a save releases the recording
    (section 4.4 of the notes) and does not count as deleting the video.
    A handle is deleted when it was deleted, once, without having been
    saved.  Never both holds by the reading; never neither is the
    content. *)
Definition persisted (v : Video) (δ : list event) : Prop :=
  saves v δ = 1.

Definition deleted (v : Video) (δ : list event) : Prop :=
  saves v δ = 0 ∧ deletes v δ = 1.

Definition persisted_xor_deleted (v : Video) (δ : list event) : Prop :=
  (persisted v δ ∧ ¬ deleted v δ) ∨ (deleted v δ ∧ ¬ persisted v δ).

(** The steps of a teardown. *)
Inductive step :=
| CaptureDiagnostics | ClosePage | FinalizeVideo | StopTracing | CloseContext.

Definition step_of_call (c : call) : option step :=
  match c with
  | page_screenshot _ | page_content | allure_attach _ _ _ => Some CaptureDiagnostics
  | page_close => Some ClosePage
  | video_save_as _ _ | allure_attach_file _ _ _ | video_delete _ => Some FinalizeVideo
  | tracing_stop _ => Some StopTracing
  | context_close => Some CloseContext
  | _ => None
  end.

(** A call counts for its step whether it returned or raised. *)
Definition step_of (ev : event) : option step :=
  match ev with
  | Returned c | Raised c _ => step_of_call c
  | Logged _ _ _ => None
  end.

Definition steps (δ : list event) : list step := omap step_of δ.

(** The order of the design notes (section 5), and the order of the
    fixtures. *)
Definition noted_order (st : step) : nat :=
  match st with
  | CaptureDiagnostics => 0 | ClosePage => 1 | StopTracing => 2
  | CloseContext => 3 | FinalizeVideo => 4
  end.

Definition fixture_order (st : step) : nat :=
  match st with
  | CaptureDiagnostics => 0 | ClosePage => 1 | FinalizeVideo => 2
  | StopTracing => 3 | CloseContext => 4
  end.

Fixpoint nondecreasing (l : list nat) : bool :=
  match l with
  | x :: (y :: _) as rest => (x <=? y)%nat && nondecreasing rest
  | _ => true
  end.

Definition in_order (rank : step → nat) (δ : list event) : bool :=
  nondecreasing (rank <$> steps δ).

(** In order, and with every rank between [lo] and [hi]. *)
Definition within (rank : step → nat) (lo hi : nat) (δ : list event) : bool :=
  nondecreasing (lo :: (rank <$> steps δ) ++ [hi]).

(** Nothing of the video finalization. *)
Definition before_video (δ : list event) : Prop :=
  Forall (λ ev, step_of ev ≠ Some FinalizeVideo) δ.

(** Where the finalizer puts a kept video, and the calls it is to make
    on a handle when all of them return. *)
Definition video_path_of (artifacts : Path) (nodeid : string) : Path :=
  path_join (path_join artifacts "videos") (safe_filename nodeid +:+ ".webm").

Definition finalizer_events (artifacts : Path) (v : Video) (nodeid : string)
    (keep attach : bool) : list event :=
  let video_path := video_path_of artifacts nodeid in
  if keep then
    [Returned (mkdir (path_join artifacts "videos"));
     Returned (video_save_as v video_path)]
    ++ (if attach
        then [Returned (allure_attach_file video_path "video" WEBM)]
        else [])
    ++ [Returned (video_delete v)]
  else [Returned (video_delete v)].

(** ** Sample runs *)

Definition sample_report (o : string) : TestReport :=
  {| failed := Some (String.eqb o "failed");
     skipped := Some (String.eqb o "skipped");
     outcome := Some o |}.

(** A test whose body ran: [call] is the outcome of the call phase. *)
Definition sample_request (call : string) : request :=
  {| nodeid := "tests/login/test_ui.py::test_form[a/b]";
     name := "test_form[a/b]";
     rep_setup := Some (sample_report "passed");
     rep_call := Some (sample_report call);
     rep_teardown := None |}.

Definition sample_prefs (keep retain : bool) : ArtifactPreferences :=
  {| video := {| record := true; keep_on_pass := keep |};
     trace := {| enabled := true; retain_on_failure := retain |} |}.

Definition sample_world : world := calm ["artifacts"] (Some (Recording 1)).

(** The state in which the fixtures of a sample test are torn down. *)
Definition sample_state (keep retain : bool) : state :=
  snd ((context_setup (sample_prefs keep retain) (sample_request "passed");;
        page_setup) sample_world initial).

(** The calls of a trace, returned or raised, in order. *)
Definition called (ev : event) : option call :=
  match ev with
  | Returned c | Raised c _ => Some c
  | Logged _ _ _ => None
  end.

Definition calls (δ : list event) : list call := omap called δ.

(** [c] was called in [δ]. *)
Definition attempted (c : call) (δ : list event) : Prop := c ∈ calls δ.

(** A string of whitespace only. *)
Fixpoint blank (s : string) : bool :=
  match s with
  | EmptyString => true
  | String c rest => Str.isspace c && blank rest
  end.

(** A world in which exactly the calls of [bad] raise. *)
Definition failing (bad : call → bool) : world :=
  {| raises := λ _ c, if bad c then Some (Exception "boom") else None;
     artifacts_dir := ["artifacts"];
     screenshot_png := "<png>";
     dom_html := "<html>";
     video_of_page := Some (Recording 1) |}.

(** The last statement of [page_teardown], from the reads of the two
    flags on. *)
Definition finalize_page_video (req : request) (video_obj : option Video)
    (record_video_enabled keep_on_pass : bool) : M unit :=
  if record_video_enabled then
    let keep_video := failed_any req || skipped_any req || keep_on_pass in
    let attach_video := failed_any req || skipped_any req in
    discard (finalize_video_artifact video_obj (nodeid req) keep_video attach_video)
  else if bool_decide (is_Some video_obj) then
    discard (finalize_video_artifact video_obj (nodeid req) false false)
  else mret ().

(** Events that are a raise, and events that are an error or warning
    record. *)
Definition is_raised (ev : event) : bool :=
  match ev with Raised _ _ => true | _ => false end.

Definition is_logged (ev : event) : bool :=
  match ev with Logged _ _ _ => true | _ => false end.

(** The keyword arguments that the [context] fixture passes to
    [browser.new_context]. *)
Definition context_options_of (artifacts : Path) (record : bool) : context_options :=
  if record then
    {| record_video_dir := Some (path_join artifacts "videos");
       record_video_size := Some (1280, 720)%N |}
  else {| record_video_dir := None; record_video_size := None |}.

(** ** [config.py] *)

Module Config.

Record AppConfig := {
  admin_host : string;
  marketing_host : string;
  scheme : string;
  artifacts_dir : Path
}.

Definition admin_base_url (self : AppConfig) : string :=
  scheme self +:+ "://" +:+ admin_host self.

Definition marketing_base_url (self : AppConfig) : string :=
  scheme self +:+ "://" +:+ marketing_host self.

Definition build_admin_url (self : AppConfig) (path : string) : string :=
  let normalized := if String.prefix "/" path then path else "/" +:+ path in
  admin_base_url self +:+ normalized.

Definition build_marketing_url (self : AppConfig) (path : string) : string :=
  let normalized := if String.prefix "/" path then path else "/" +:+ path in
  marketing_base_url self +:+ normalized.

(** Truth value of an [Optional[str]], and [a or b] with a string for
    [b]. *)
Definition truthy (a : option string) : bool :=
  match a with Some s => Str.truthy s | None => false end.

Definition or_else (a : option string) (b : string) : string :=
  match a with
  | Some s => if Str.truthy s then s else b
  | None => b
  end.

(** [a or b] with an optional string for [b]. *)
Definition py_or (a b : option string) : option string :=
  if truthy a then a else b.

(** The body of [get_app_config].  [environ] is [os.environ] after
    [load_dotenv], which adds variables and overrides none; [resolve] is
    [Path(...).resolve()] on the machine of the run. *)
Definition get_app_config (resolve : string → Path)
    (environ : gmap string string) (base_host : option string)
  : result AppConfig :=
  let scheme := default "https" (environ !! "APP_SCHEME") in
  let admin_host_env := environ !! "APP_BASE_HOST" in
  let marketing_host_env := environ !! "MARKETING_BASE_HOST" in
  let admin_host := py_or base_host admin_host_env in
  match admin_host with
  | Some admin_host =>
      if Str.truthy admin_host then
        let marketing_host := or_else marketing_host_env admin_host in
        let artifacts_dir :=
          resolve (default "artifacts" (environ !! "ARTIFACTS_ROOT")) in
        Ok {| admin_host := admin_host;
              marketing_host := marketing_host;
              scheme := scheme;
              artifacts_dir := artifacts_dir |}
      else Raise (Exception "APP_BASE_HOST must be set (no default admin host)")
  | None => Raise (Exception "APP_BASE_HOST must be set (no default admin host)")
  end.

End Config.

(** ** The artifact path with its configuration

    [get_artifact_path] above reads the artifacts directory of a
    configuration that exists, as it does once the setup of [context] has
    asked for it.  [files.py] obtains the directory from
    [get_app_config(None)], which raises without an admin host in the
    environment; here is that call, and the finalizer over it. *)

(** A value or an exception, as a computation. *)
Definition lift_result {A} (r : result A) : M A := λ _ s, (r, s).

Module WithEnviron.

Definition get_artifact_path (resolve : string → Path)
    (environ : gmap string string) (artifact_type : string) : result Path :=
  match Config.get_app_config resolve environ None with
  | Ok config => Ok (path_join (Config.artifacts_dir config) artifact_type)
  | Raise e => Raise e
  end.

Definition finalize_video_artifact (resolve : string → Path)
    (environ : gmap string string) (video : option Video) (nodeid : string)
    (keep attach_on_keep : bool) : M (option Path) :=
  match video with
  | None => mret None
  | Some v =>
      if keep then
        videos ← lift_result (get_artifact_path resolve environ "videos");
        let video_path := path_join videos (safe_filename nodeid +:+ ".webm") in
        ensure_dir (parent video_path);;
        do_call (video_save_as v video_path);;
        (if attach_on_keep
         then do_call (allure_attach_file video_path "video" WEBM)
         else mret ());;
        do_call (video_delete v);;
        mret (Some video_path)
      else
        do_call (video_delete v);;
        mret None
  end.

End WithEnviron.

(** An environment with an admin host, and a [resolve] that keeps the
    root as it is. *)
Definition sample_environ : gmap string string :=
  {[ "APP_BASE_HOST" := "app.mera.fit" ]}.

Definition sample_resolve (root : string) : Path := [root].

(** The calls that stop tracing. *)
Definition is_tracing_stop (c : call) : bool :=
  match c with tracing_stop _ => true | _ => false end.

(** ** [pytest_plugins/reporting.py] *)

Module Reporting.

(** [obj.attr] on an object that may lack the attribute. *)
Definition attribute {A} (value : option A) (name : string) : result A :=
  match value with
  | Some x => Ok x
  | None => Raise (Exception ("AttributeError: " +:+ name))
  end.

(** The label that [pytest_runtest_protocol] computes. *)
Definition outcome_label (req : request) : result string :=
  match rep_call req with
  | Some rep_call => attribute (outcome rep_call) "outcome"
  | None =>
      match rep_setup req with
      | Some rep_setup =>
          match attribute (failed rep_setup) "failed" with
          | Ok true => Ok "failed"
          | Ok false => Ok "skipped"
          | Raise e => Raise e
          end
      | None => Ok "skipped"
      end
  end.

(** An entry of [config._test_runtimes]; [D] is the type of durations. *)
Record runtime (D : Type) := {
  rt_name : string;
  rt_nodeid : string;
  rt_duration : D;
  rt_outcome : string
}.
Arguments rt_name {D} _.
Arguments rt_nodeid {D} _.
Arguments rt_duration {D} _.
Arguments rt_outcome {D} _.

(** [pytest_runtest_protocol] after its [yield]: the list of runtimes
    ([None] when the attribute is not there yet) gets one more entry. *)
Definition pytest_runtest_protocol {D} (total : D) (req : request)
    (runtimes : option (list (runtime D))) : result (list (runtime D)) :=
  let durations := default [] runtimes in
  match outcome_label req with
  | Ok outcome_label =>
      Ok (durations ++ [{| rt_name := name req; rt_nodeid := nodeid req;
                           rt_duration := total;
                           rt_outcome := outcome_label |}])
  | Raise e => Raise e
  end.

(** The marker of a line of the summary. *)
Inductive icon := PASS | FAIL | SKIP.

Global Instance icon_eq_dec : EqDecision icon.
Proof. solve_decision. Defined.

Definition status_icon {D} (test : runtime D) : icon :=
  if String.eqb (rt_outcome test) "passed" then PASS
  else if String.eqb (rt_outcome test) "failed" then FAIL
  else SKIP.

(** The two counts of the last line of the summary. *)
Definition passed {D} (durations : list (runtime D)) : nat :=
  length (List.filter (λ t, String.eqb (rt_outcome t) "passed") durations).

Definition failed_count {D} (durations : list (runtime D)) : nat :=
  length (List.filter (λ t, String.eqb (rt_outcome t) "failed") durations).

End Reporting.

(** ** [helpers/network_monitor.py] *)

Module NetworkMonitor.

(** What the monitor reads of a Playwright request. *)
Record Request := {
  method : string;
  url : string
}.

(** [needle in hay] on strings. *)
Fixpoint contains (needle hay : string) : bool :=
  String.prefix needle hay ||
  match hay with
  | EmptyString => false
  | String _ rest => contains needle rest
  end.

(** A handler is a callable on a request; what it does is seen on the
    list objects of the test, held by identity. *)
Definition Handler : Type :=
  Request → gmap nat (list string) → gmap nat (list string).

Record LoginRequestMonitor := {
  _handler : option Handler;
  _listener_registered : bool
}.

(** The monitor with its page: [listeners] counts how often
    [_handle_request] was given to [page.on("request", ...)]. *)
Record session := {
  monitor : LoginRequestMonitor;
  listeners : nat
}.

Definition __init__ : session :=
  {| monitor := {| _handler := None; _listener_registered := false |};
     listeners := 0 |}.

Definition on_login_request (handler : Handler) (st : session) : session :=
  let self := monitor st in
  let '(listeners, registered) :=
    if negb (_listener_registered self)
    then (S (listeners st), true)
    else (listeners st, _listener_registered self) in
  {| monitor := {| _handler := Some handler;
                   _listener_registered := registered |};
     listeners := listeners |}.

(** The closure [store_url] of [collect_requests]: [storage.append(request.url)]. *)
Definition store_url (storage : nat) : Handler :=
  λ request objects, alter (λ l, l ++ [url request]) storage objects.

Definition collect_requests (storage : nat) (st : session) : session :=
  on_login_request (store_url storage) st.

Definition is_login_post (request : Request) : bool :=
  String.eqb (method request) "POST" && contains "/admin/login" (url request).

Definition _handle_request (self : LoginRequestMonitor) (request : Request)
    (objects : gmap nat (list string)) : gmap nat (list string) :=
  match _handler self with
  | Some handler => if is_login_post request then handler request objects
                    else objects
  | None => objects
  end.

(** The page emits a request: every registered listener runs. *)
Definition emit_request (st : session) (request : Request)
    (objects : gmap nat (list string)) : gmap nat (list string) :=
  Nat.iter (listeners st) (_handle_request (monitor st) request) objects.

Definition emit_requests (st : session) (requests : list Request)
    (objects : gmap nat (list string)) : gmap nat (list string) :=
  foldl (λ o r, emit_request st r o) objects requests.

(** Handlers registered one after the other on a new monitor. *)
Definition registered (handlers : list Handler) : session :=
  foldl (λ st h, on_login_request h st) __init__ handlers.

End NetworkMonitor.

(** A report as pytest builds it: [failed] and [skipped] say what
    [outcome] says. *)
Definition from_pytest (rep : TestReport) : Prop :=
  ∃ o, outcome rep = Some o ∧
       failed rep = Some (String.eqb o "failed") ∧
       skipped rep = Some (String.eqb o "skipped").

(** * Properties *)

(** ** Strings *)

Module StrFacts.
Import Str.

(** Case analysis on the 256 code points. *)
Ltac by_code_point c :=
  let b0 := fresh in let b1 := fresh in let b2 := fresh in
  let b3 := fresh in let b4 := fresh in let b5 := fresh in
  let b6 := fresh in let b7 := fresh in
  destruct c as [b0 b1 b2 b3 b4 b5 b6 b7];
  destruct b0, b1, b2, b3, b4, b5, b6, b7; reflexivity.

Lemma isspace_lower_char c : isspace (lower_char c) = isspace c.
Proof. by_code_point c. Qed.

Lemma lower_char_idemp c : lower_char (lower_char c) = lower_char c.
Proof. by_code_point c. Qed.

Lemma lower_idemp s : lower (lower s) = lower s.
Proof. induction s as [|c s IH]; simpl; [done|]. by rewrite lower_char_idemp, IH. Qed.

Lemma lower_empty s : lower s = "" ↔ s = "".
Proof. by destruct s. Qed.

Lemma lower_lstrip s : lower (lstrip s) = lstrip (lower s).
Proof.
  induction s as [|c s IH]; simpl; [done|].
  rewrite isspace_lower_char. by destruct (isspace c).
Qed.

Lemma lower_rstrip s : lower (rstrip s) = rstrip (lower s).
Proof.
  induction s as [|c s IH]; simpl; [done|].
  rewrite <- IH, isspace_lower_char.
  destruct (rstrip s); simpl; [by destruct (isspace c)|done].
Qed.

Lemma lower_strip s : lower (strip s) = strip (lower s).
Proof. unfold strip. by rewrite lower_rstrip, lower_lstrip. Qed.

Lemma lstrip_idemp s : lstrip (lstrip s) = lstrip s.
Proof.
  induction s as [|c s IH]; simpl; [done|].
  destruct (isspace c) eqn:E; [done|]. simpl. by rewrite E.
Qed.

Lemma rstrip_idemp s : rstrip (rstrip s) = rstrip s.
Proof.
  induction s as [|c s IH]; simpl; [done|].
  destruct (rstrip s) as [|d r] eqn:E.
  - destruct (isspace c) eqn:Ec; simpl; [done|]. by rewrite Ec.
  - remember (String d r) as t. simpl. rewrite IH. by subst t.
Qed.

Lemma lstrip_rstrip s : lstrip (rstrip s) = rstrip (lstrip s).
Proof.
  induction s as [|c s IH]; simpl; [done|].
  destruct (isspace c) eqn:Ec.
  - rewrite <- IH. destruct (rstrip s) eqn:E; simpl; [done|]. by rewrite Ec.
  - simpl. destruct (rstrip s); simpl; by rewrite Ec.
Qed.

Lemma strip_idemp s : strip (strip s) = strip s.
Proof.
  unfold strip. by rewrite lstrip_rstrip, lstrip_idemp, rstrip_idemp.
Qed.

(** Normalizing twice, as [_parse_bool] does on an already normalized
    string, changes nothing. *)
Lemma normalize_idemp s : lower (strip (lower (strip s))) = lower (strip s).
Proof. by rewrite <- lower_strip, lower_idemp, strip_idemp. Qed.

Lemma strip_empty_inv s : truthy s = false → s = "".
Proof. by destruct s. Qed.

End StrFacts.

(** ** The value sets *)

Ltac set_as_list :=
  rewrite ?elem_of_union, ?elem_of_singleton, ?elem_of_cons, ?elem_of_nil;
  tauto.

Lemma elem_of_TRUTHY x :
  x ∈ TRUTHY_VALUES ↔ x ∈ ["1"; "true"; "yes"; "on"; "enabled"].
Proof. unfold TRUTHY_VALUES. set_as_list. Qed.

Lemma elem_of_FALSY x :
  x ∈ FALSY_VALUES ↔ x ∈ ["0"; "false"; "no"; "off"; "disabled"].
Proof. unfold FALSY_VALUES. set_as_list. Qed.

Lemma elem_of_KEEP x :
  x ∈ VIDEO_KEEP_VALUES ↔ x ∈ ["all"; "always"; "keep"].
Proof. unfold VIDEO_KEEP_VALUES. set_as_list. Qed.

Lemma elem_of_MODES x :
  x ∈ TRACE_MODES ↔ x ∈ ["off"; "on"; "retain-on-failure"].
Proof. unfold TRACE_MODES. set_as_list. Qed.

Lemma truthy_falsy_disjoint : TRUTHY_VALUES ## FALSY_VALUES.
Proof. compute_done. Qed.

Lemma truthy_keep_disjoint : TRUTHY_VALUES ## VIDEO_KEEP_VALUES.
Proof. compute_done. Qed.

Lemma falsy_keep_disjoint : FALSY_VALUES ## VIDEO_KEEP_VALUES.
Proof. compute_done. Qed.

Lemma keep_modes_disjoint : VIDEO_KEEP_VALUES ## TRACE_MODES.
Proof. compute_done. Qed.

Lemma disjoint_elim (X Y : gset string) x : X ## Y → x ∈ X → x ∈ Y → False.
Proof. rewrite elem_of_disjoint. eauto. Qed.

Lemma py_in_true x S : py_in x S = true ↔ x ∈ S.
Proof. unfold py_in. apply bool_decide_eq_true. Qed.

Lemma py_in_false x S : py_in x S = false ↔ x ∉ S.
Proof. unfold py_in. apply bool_decide_eq_false. Qed.

(** ** The policy resolver *)

Section Resolver.
Import Str StrFacts.

Lemma parse_bool_normalized s :
  _parse_bool (Some (lower (strip s))) = _parse_bool (Some s).
Proof. unfold _parse_bool. by rewrite normalize_idemp. Qed.

(** Case does not matter to [_parse_bool]. *)
Lemma parse_bool_case_insensitive a b :
  lower a = lower b → _parse_bool (Some a) = _parse_bool (Some b).
Proof.
  intros E. unfold _parse_bool. by rewrite !lower_strip, E.
Qed.

Lemma parse_bool_true s :
  _parse_bool (Some s) = Some true ↔ lower (strip s) ∈ TRUTHY_VALUES.
Proof.
  unfold _parse_bool.
  destruct (py_in _ TRUTHY_VALUES) eqn:ET.
  - apply py_in_true in ET. tauto.
  - apply py_in_false in ET.
    destruct (py_in _ FALSY_VALUES); split; (done || tauto).
Qed.

Lemma parse_bool_false s :
  _parse_bool (Some s) = Some false ↔ lower (strip s) ∈ FALSY_VALUES.
Proof.
  unfold _parse_bool.
  destruct (py_in _ TRUTHY_VALUES) eqn:ET.
  - apply py_in_true in ET. split; [done|].
    intros EF. by destruct (disjoint_elim _ _ _ truthy_falsy_disjoint ET EF).
  - destruct (py_in _ FALSY_VALUES) eqn:EF.
    + apply py_in_true in EF. tauto.
    + apply py_in_false in EF. split; (done || tauto).
Qed.

Lemma parse_bool_none s :
  _parse_bool (Some s) = None ↔
  (lower (strip s) ∉ TRUTHY_VALUES) ∧ (lower (strip s) ∉ FALSY_VALUES).
Proof.
  unfold _parse_bool.
  pose proof (py_in_true (lower (strip s)) TRUTHY_VALUES) as T.
  pose proof (py_in_true (lower (strip s)) FALSY_VALUES) as F.
  destruct (py_in (lower (strip s)) TRUTHY_VALUES),
           (py_in (lower (strip s)) FALSY_VALUES);
    (split;
     [ intros E; try discriminate E;
       split; intros H; (apply T in H || apply F in H); discriminate
     | intros [NT NF]; try reflexivity; exfalso;
       (apply NT; tauto) || (apply NF; tauto) ]).
Qed.

(** A string of the keep set is its own normal form and is no boolean. *)
Lemma keep_not_bool s :
  lower (strip s) ∈ VIDEO_KEEP_VALUES → _parse_bool (Some s) = None.
Proof.
  intros K. apply parse_bool_none. split; intros B.
  - by destruct (disjoint_elim _ _ _ truthy_keep_disjoint B K).
  - by destruct (disjoint_elim _ _ _ falsy_keep_disjoint B K).
Qed.

Lemma keep_literal s : s ∈ VIDEO_KEEP_VALUES → lower (strip s) = s.
Proof.
  rewrite elem_of_KEEP, !elem_of_cons, elem_of_nil.
  intros [->|[->|[->|[]]]]; reflexivity.
Qed.

Lemma if_set_some {A} raw (body : string → A) skip :
  raw ≠ "" → if_set (Some raw) body skip = body raw.
Proof. by destruct raw. Qed.

Lemma normalized_nonempty raw (S : gset string) :
  "" ∉ S → lower (strip raw) ∈ S → raw ≠ "".
Proof. intros N I ->. by apply N. Qed.

End Resolver.

(** C8.  [_parse_bool] gives [True] exactly when the stripped,
    lower-cased value is one of 1, true, yes, on, enabled; [False]
    exactly when it is one of 0, false, no, off, disabled; [None] for
    every other string; and [None] for a missing value. *)
Theorem parse_bool_spec (value : string) :
  let normalized := Str.lower (Str.strip value) in
  (_parse_bool (Some value) = Some true ↔
     normalized ∈ ["1"; "true"; "yes"; "on"; "enabled"]) ∧
  (_parse_bool (Some value) = Some false ↔
     normalized ∈ ["0"; "false"; "no"; "off"; "disabled"]) ∧
  (_parse_bool (Some value) = None ↔
     (normalized ∉ ["1"; "true"; "yes"; "on"; "enabled"]) ∧
     (normalized ∉ ["0"; "false"; "no"; "off"; "disabled"])) ∧
  _parse_bool None = None.
Proof.
  cbv zeta. rewrite <- elem_of_TRUTHY, <- elem_of_FALSY.
  split; [apply parse_bool_true|].
  split; [apply parse_bool_false|].
  split; [apply parse_bool_none|reflexivity].
Qed.

(** ** Trace preferences *)

Section TraceResolution.
Import Str StrFacts.
Variables (cfg : pytestconfig) (env : environ).

Lemma empty_not_mode : "" ∉ TRACE_MODES.
Proof. compute_done. Qed.

Lemma empty_not_keep : "" ∉ VIDEO_KEEP_VALUES.
Proof. compute_done. Qed.

Lemma trace_mode_unset :
  PLAYWRIGHT_TRACE env = None ∨ PLAYWRIGHT_TRACE env = Some "" →
  trace_mode cfg env = opt_pw_trace cfg.
Proof. unfold trace_mode. by intros [-> | ->]. Qed.

Lemma trace_mode_known raw :
  PLAYWRIGHT_TRACE env = Some raw →
  lower (strip raw) ∈ TRACE_MODES →
  trace_mode cfg env = lower (strip raw).
Proof.
  intros E K. unfold trace_mode. rewrite E, if_set_some.
  - apply py_in_true in K. by rewrite K.
  - by apply (normalized_nonempty _ _ empty_not_mode).
Qed.

Lemma trace_mode_truthy raw :
  PLAYWRIGHT_TRACE env = Some raw →
  lower (strip raw) ∉ TRACE_MODES →
  _parse_bool (Some raw) = Some true →
  trace_mode cfg env = "on".
Proof.
  intros E K B. unfold trace_mode. rewrite E.
  rewrite if_set_some by (by intros ->).
  apply py_in_false in K. rewrite K, parse_bool_normalized, B.
  destruct (py_in _ VIDEO_KEEP_VALUES) eqn:V; [|done].
  apply py_in_true, keep_not_bool in V. congruence.
Qed.

Lemma trace_mode_other raw :
  PLAYWRIGHT_TRACE env = Some raw →
  lower (strip raw) ∉ TRACE_MODES →
  _parse_bool (Some raw) ≠ Some true →
  trace_mode cfg env = opt_pw_trace cfg.
Proof.
  intros E K B. unfold trace_mode. rewrite E.
  destruct (decide (raw = "")) as [->|N]; [done|].
  rewrite if_set_some by done.
  apply py_in_false in K. rewrite K, parse_bool_normalized.
  by destruct (_parse_bool _) as [[]|].
Qed.

End TraceResolution.

(** C5.  The mode is the CLI value unless [PLAYWRIGHT_TRACE] is set: a
    value that is a known mode once stripped and lower-cased becomes the
    mode; otherwise a value that parses to [True] gives
    retain-on-failure when the string is in the keep set and on when it
    is not; any other value leaves the CLI mode.  The preferences are
    [enabled] iff the mode is not off and [retain_on_failure] iff the mode
    is retain-on-failure. *)
Theorem trace_resolution (cfg : pytestconfig) (env : environ) :
  let mode := trace_mode cfg env in
  let prefs := _resolve_trace_preferences cfg env in
  (enabled prefs = true ↔ mode ≠ "off") ∧
  (retain_on_failure prefs = true ↔ mode = "retain-on-failure") ∧
  (∀ raw, PLAYWRIGHT_TRACE env = Some raw →
     let normalized := Str.lower (Str.strip raw) in
     (normalized ∈ ["off"; "on"; "retain-on-failure"] → mode = normalized) ∧
     (normalized ∉ ["off"; "on"; "retain-on-failure"] →
      _parse_bool (Some raw) = Some true →
      mode = (if bool_decide (raw ∈ ["all"; "always"; "keep"])
              then "retain-on-failure" else "on") ∧
      mode = (if bool_decide (normalized ∈ ["all"; "always"; "keep"])
              then "retain-on-failure" else "on")) ∧
     (normalized ∉ ["off"; "on"; "retain-on-failure"] →
      _parse_bool (Some raw) ≠ Some true →
      mode = opt_pw_trace cfg)) ∧
  (PLAYWRIGHT_TRACE env = None ∨ PLAYWRIGHT_TRACE env = Some "" →
   mode = opt_pw_trace cfg).
Proof.
  cbv zeta. split; [|split; [|split]].
  - unfold _resolve_trace_preferences. simpl.
    rewrite negb_true_iff. apply String.eqb_neq.
  - unfold _resolve_trace_preferences. simpl. apply String.eqb_eq.
  - intros raw E. rewrite <- !elem_of_MODES. split; [|split].
    + by apply trace_mode_known.
    + intros K B. rewrite (trace_mode_truthy cfg env raw E K B).
      rewrite !bool_decide_eq_false_2; [done| |].
      * rewrite <- elem_of_KEEP. intros V.
        apply keep_not_bool in V. congruence.
      * rewrite <- elem_of_KEEP. intros V.
        pose proof (keep_literal _ V) as L. rewrite <- L in V.
        apply keep_not_bool in V. congruence.
    + by apply trace_mode_other.
  - apply trace_mode_unset.
Qed.

(** Sample resolutions: a mode in any case, a truthy value, a value of
    the keep set, a falsy value. *)
Example trace_examples :
  let resolve cli raw :=
    _resolve_trace_preferences
      {| opt_video := false; opt_keep_video_on_pass := false;
         opt_pw_trace := cli |}
      {| PLAYWRIGHT_VIDEO := None; PLAYWRIGHT_KEEP_VIDEO_ON_PASS := None;
         PLAYWRIGHT_TRACE := raw |} in
  resolve "off" (Some " On ") = {| enabled := true; retain_on_failure := false |} ∧
  resolve "off" (Some "1") = {| enabled := true; retain_on_failure := false |} ∧
  resolve "off" (Some "keep") = {| enabled := false; retain_on_failure := false |} ∧
  resolve "on" (Some "false") = {| enabled := true; retain_on_failure := false |} ∧
  resolve "on" (Some "off") = {| enabled := false; retain_on_failure := false |} ∧
  resolve "retain-on-failure" None = {| enabled := true; retain_on_failure := true |}.
Proof. repeat split; reflexivity. Qed.

(** C10, counterexample.  With [--pw-trace=off] and
    [PLAYWRIGHT_TRACE=RETAIN-ON-FAILURE] the resolver retains on failure,
    and neither string is retain-on-failure itself. *)
Lemma retain_only_if_literal_fails :
  ¬ retain_only_if_literal
      {| opt_video := false; opt_keep_video_on_pass := false;
         opt_pw_trace := "off" |}
      {| PLAYWRIGHT_VIDEO := None; PLAYWRIGHT_KEEP_VIDEO_ON_PASS := None;
         PLAYWRIGHT_TRACE := Some "RETAIN-ON-FAILURE" |}.
Proof.
  intros H. destruct H as [H|H]; [reflexivity|discriminate H|discriminate H].
Qed.

(** C10, amended.  [retain_on_failure] implies [enabled]; an environment
    value whose normal form is in the keep set leaves the CLI mode as it
    is; and [retain_on_failure] holds only if the CLI value is
    retain-on-failure or the environment value, stripped and lower-cased,
    is retain-on-failure. *)
Theorem trace_retain_invariant (cfg : pytestconfig) (env : environ) :
  let prefs := _resolve_trace_preferences cfg env in
  (retain_on_failure prefs = true → enabled prefs = true) ∧
  (∀ raw, PLAYWRIGHT_TRACE env = Some raw →
     Str.lower (Str.strip raw) ∈ ["all"; "always"; "keep"] →
     trace_mode cfg env = opt_pw_trace cfg) ∧
  (retain_on_failure prefs = true →
     opt_pw_trace cfg = "retain-on-failure" ∨
     ∃ raw, PLAYWRIGHT_TRACE env = Some raw ∧
            Str.lower (Str.strip raw) = "retain-on-failure").
Proof.
  cbv zeta. split; [|split].
  - unfold _resolve_trace_preferences. simpl.
    intros R. apply String.eqb_eq in R. by rewrite R.
  - intros raw E K. rewrite <- elem_of_KEEP in K.
    apply trace_mode_other with raw; [done| |].
    + intros Mo. exact (disjoint_elim _ _ _ keep_modes_disjoint K Mo).
    + apply keep_not_bool in K. congruence.
  - unfold _resolve_trace_preferences. simpl. intros R.
    apply String.eqb_eq in R.
    destruct (PLAYWRIGHT_TRACE env) as [raw|] eqn:E.
    + destruct (decide (Str.lower (Str.strip raw) ∈ TRACE_MODES)) as [K|K].
      * right. exists raw. split; [done|].
        by rewrite <- (trace_mode_known cfg env raw E K).
      * destruct (decide (_parse_bool (Some raw) = Some true)) as [B|B].
        -- rewrite (trace_mode_truthy cfg env raw E K B) in R. discriminate R.
        -- left. by rewrite <- (trace_mode_other cfg env raw E K B).
    + left. rewrite <- R. symmetry. apply trace_mode_unset. by left.
Qed.

(** ** Video preferences *)

Section VideoResolution.
Import Str StrFacts.
Variables (cfg : pytestconfig) (env : environ).

(** [record] and [keep_on_pass] after the [PLAYWRIGHT_VIDEO] block. *)
Lemma video_keep_override :
  keep_on_pass (_resolve_video_preferences cfg env) =
  match _parse_bool (PLAYWRIGHT_KEEP_VIDEO_ON_PASS env) with
  | Some b => b
  | None =>
      if_set (PLAYWRIGHT_VIDEO env)
        (λ raw, py_in (lower (strip raw)) VIDEO_KEEP_VALUES
                || opt_keep_video_on_pass cfg)
        (opt_keep_video_on_pass cfg)
  end.
Proof.
  unfold _resolve_video_preferences, if_set.
  destruct (_parse_bool (PLAYWRIGHT_KEEP_VIDEO_ON_PASS env)) as [k|].
  { by repeat case_match. }
  destruct (PLAYWRIGHT_VIDEO env) as [raw|]; [|done].
  destruct (truthy raw); [|done].
  destruct (_parse_bool (Some (lower (strip raw)))) as [b|] eqn:B.
  - rewrite parse_bool_normalized in B.
    destruct (py_in _ VIDEO_KEEP_VALUES) eqn:V; [|done].
    apply py_in_true, keep_not_bool in V. congruence.
  - by destruct (py_in _ VIDEO_KEEP_VALUES).
Qed.

Lemma video_record :
  record (_resolve_video_preferences cfg env) =
  if_set (PLAYWRIGHT_VIDEO env)
    (λ raw, default true (_parse_bool (Some raw)))
    (opt_video cfg).
Proof.
  unfold _resolve_video_preferences, if_set.
  destruct (PLAYWRIGHT_VIDEO env) as [raw|]; [|done].
  destruct (truthy raw); [|done].
  rewrite parse_bool_normalized.
  destruct (_parse_bool (Some raw)); [done|].
  by destruct (py_in _ VIDEO_KEEP_VALUES).
Qed.

Lemma parse_bool_nonempty raw b : _parse_bool (Some raw) = Some b → raw ≠ "".
Proof. by intros B ->. Qed.

End VideoResolution.

(** C6.  A [PLAYWRIGHT_VIDEO] that parses to a boolean sets [record] to
    it; one whose normal form is all, always or keep gives [record] and
    [keep_on_pass]; any other non-empty value gives [record] and leaves
    [keep_on_pass] at its CLI value; without the variable both are the
    CLI values.  A [PLAYWRIGHT_KEEP_VIDEO_ON_PASS] that parses to a
    boolean then decides [keep_on_pass], whatever came before; the
    earlier value stands when it does not parse. *)
Theorem video_resolution (cfg : pytestconfig) (env : environ) :
  let prefs := _resolve_video_preferences cfg env in
  let no_override := _parse_bool (PLAYWRIGHT_KEEP_VIDEO_ON_PASS env) = None in
  (∀ raw b, PLAYWRIGHT_VIDEO env = Some raw →
     _parse_bool (Some raw) = Some b →
     record prefs = b ∧
     (no_override → keep_on_pass prefs = opt_keep_video_on_pass cfg)) ∧
  (∀ raw, PLAYWRIGHT_VIDEO env = Some raw →
     Str.lower (Str.strip raw) ∈ ["all"; "always"; "keep"] →
     record prefs = true ∧ (no_override → keep_on_pass prefs = true)) ∧
  (∀ raw, PLAYWRIGHT_VIDEO env = Some raw → raw ≠ "" →
     _parse_bool (Some raw) = None →
     Str.lower (Str.strip raw) ∉ ["all"; "always"; "keep"] →
     record prefs = true ∧
     (no_override → keep_on_pass prefs = opt_keep_video_on_pass cfg)) ∧
  (PLAYWRIGHT_VIDEO env = None ∨ PLAYWRIGHT_VIDEO env = Some "" →
     record prefs = opt_video cfg ∧
     (no_override → keep_on_pass prefs = opt_keep_video_on_pass cfg)) ∧
  (∀ b, _parse_bool (PLAYWRIGHT_KEEP_VIDEO_ON_PASS env) = Some b →
     keep_on_pass prefs = b).
Proof.
  cbv zeta. rewrite video_keep_override, video_record.
  split; [|split; [|split; [|split]]].
  - intros raw b E B. rewrite E.
    rewrite !if_set_some by (by eapply parse_bool_nonempty).
    rewrite B. split; [done|]. intros ->.
    destruct (py_in _ VIDEO_KEEP_VALUES) eqn:V; [|done].
    apply py_in_true, keep_not_bool in V. congruence.
  - intros raw E K. rewrite <- elem_of_KEEP in K. rewrite E.
    rewrite !if_set_some by (by apply (normalized_nonempty _ _ empty_not_keep)).
    rewrite (keep_not_bool _ K). split; [done|]. intros ->.
    apply py_in_true in K. by rewrite K.
  - intros raw E N B K. rewrite <- elem_of_KEEP in K. rewrite E.
    rewrite !if_set_some by done. rewrite B. split; [done|]. intros ->.
    apply py_in_false in K. by rewrite K.
  - intros [-> | ->]; (split; [done|]); by intros ->.
  - by intros b ->.
Qed.

(** The example of the design notes: [PLAYWRIGHT_VIDEO=keep]. *)
Example video_keep_example cfg :
  _resolve_video_preferences cfg
    {| PLAYWRIGHT_VIDEO := Some "keep";
       PLAYWRIGHT_KEEP_VIDEO_ON_PASS := None;
       PLAYWRIGHT_TRACE := None |}
  = {| record := true; keep_on_pass := true |}.
Proof. reflexivity. Qed.

(** ** File names *)

Lemma class_matches_allowed c : Re.class_matches filename_class c = allowed c.
Proof. StrFacts.by_code_point c. Qed.

Lemma unsafe_pattern_matches c :
  Re.class_matches unsafe_pattern c = negb (allowed c).
Proof. StrFacts.by_code_point c. Qed.

Lemma safe_filename_cons c text :
  safe_filename (String c text) =
  String (if allowed c then c else "_"%char) (safe_filename text).
Proof.
  unfold safe_filename. simpl Re.sub. rewrite unsafe_pattern_matches.
  by destruct (allowed c).
Qed.

Lemma sanitized_allowed c : allowed (if allowed c then c else "_"%char) = true.
Proof. by destruct (allowed c) eqn:E. Qed.

(** C9.  [safe_filename] keeps the length of its input; at every position
    it keeps a character of [A-Za-z0-9._-] and puts an underscore for any
    other; every character of the result is in [A-Za-z0-9._-]. *)
Theorem safe_filename_spec (text : string) :
  String.length (safe_filename text) = String.length text ∧
  (∀ i c, String.get i text = Some c →
     String.get i (safe_filename text)
     = Some (if allowed c then c else "_"%char)) ∧
  (∀ i c, String.get i (safe_filename text) = Some c → allowed c = true).
Proof.
  induction text as [|c text (IHlen & IHget & IHall)].
  - repeat split; intros i c H; by destruct i.
  - rewrite safe_filename_cons. split; [|split].
    + simpl. by rewrite IHlen.
    + intros [|i] d; simpl.
      * by intros [= ->].
      * apply IHget.
    + intros [|i] d; simpl.
      * intros [= <-]. apply sanitized_allowed.
      * apply IHall.
Qed.

(** The example of the design notes. *)
Example safe_filename_example :
  safe_filename "tests/login::test[a/b]" = "tests_login__test_a_b_".
Proof. reflexivity. Qed.

(** ** The outcome observer *)

Lemma elem_of_reports req rep :
  rep ∈ reports req ↔
  rep_setup req = Some rep ∨ rep_call req = Some rep ∨ rep_teardown req = Some rep.
Proof.
  unfold reports.
  destruct (rep_setup req), (rep_call req), (rep_teardown req); simpl;
    rewrite ?elem_of_cons, ?elem_of_nil; intuition congruence.
Qed.

Lemma is_skipped_spec rep :
  _is_skipped rep = true ↔ skipped rep = Some true ∨ outcome rep = Some "skipped".
Proof.
  unfold _is_skipped. rewrite orb_true_iff, String.eqb_eq.
  destruct (skipped rep) as [[]|], (outcome rep); simpl; intuition congruence.
Qed.

Lemma is_failed_spec rep : _is_failed rep = true ↔ failed rep = Some true.
Proof. unfold _is_failed. destruct (failed rep) as [[]|]; simpl; intuition congruence. Qed.

Lemma existsb_elem_of {A} (f : A → bool) (l : list A) :
  existsb f l = true ↔ ∃ x, x ∈ l ∧ f x = true.
Proof.
  rewrite existsb_exists. split; intros (x & I & F); exists x;
    (split; [by apply list_elem_of_In|done]).
Qed.

(** C3, counterexample.  Setup failed, nothing is marked skipped and there
    is no call report: [skipped_any] is false. *)
Lemma setup_failure_is_not_skipped :
  ¬ setup_failure_counts_as_skipped
      {| nodeid := "tests/login/test_ui.py::test_form";
         name := "test_form";
         rep_setup := Some {| failed := Some true; skipped := Some false;
                              outcome := Some "failed" |};
         rep_call := None;
         rep_teardown := None |}.
Proof.
  intros H. unfold setup_failure_counts_as_skipped in H.
  discriminate H; [reflexivity|]. right. eexists. split; reflexivity.
Qed.

(** C3, amended.  [skipped_any] is true exactly when some report that
    exists is marked skipped, by its [skipped] attribute or by the outcome
    skipped; [failed_any] is true exactly when some report that exists is
    marked failed.  A failed setup, with or without a call report, gives
    [failed_any], hence [capture_needed]; it gives [skipped_any] only if
    a report is marked skipped. *)
Theorem outcome_flags (req : request) :
  (skipped_any req = true ↔
     ∃ rep, rep ∈ reports req ∧
            (skipped rep = Some true ∨ outcome rep = Some "skipped")) ∧
  (failed_any req = true ↔
     ∃ rep, rep ∈ reports req ∧ failed rep = Some true) ∧
  (∀ rep, rep ∈ reports req ↔
     rep_setup req = Some rep ∨ rep_call req = Some rep ∨
     rep_teardown req = Some rep) ∧
  (∀ rep, rep_setup req = Some rep → failed rep = Some true →
     failed_any req = true ∧ capture_needed req = true) ∧
  capture_needed req = failed_any req || skipped_any req.
Proof.
  assert (F : failed_any req = true ↔
              ∃ rep, rep ∈ reports req ∧ failed rep = Some true).
  { unfold failed_any. rewrite existsb_elem_of.
    by setoid_rewrite is_failed_spec. }
  split; [|split; [done|split; [|split; [|done]]]].
  - unfold skipped_any. rewrite existsb_elem_of.
    by setoid_rewrite is_skipped_spec.
  - intros rep. apply elem_of_reports.
  - intros rep S Fl.
    assert (failed_any req = true) as E.
    { apply F. exists rep. split; [|done]. apply elem_of_reports. by left. }
    unfold capture_needed. by rewrite E.
Qed.

(** ** Running the effects *)

Lemma add_nil s : add s [] = s.
Proof. destruct s. unfold add. simpl. by rewrite app_nil_r. Qed.

Lemma add_add s δ1 δ2 : add (add s δ1) δ2 = add s (δ1 ++ δ2).
Proof. unfold add. simpl. by rewrite app_assoc. Qed.

Lemma do_call_returns w s c :
  raises w (events s) c = None → do_call c w s = (Ok (), add s [Returned c]).
Proof. unfold do_call. by intros ->. Qed.

Lemma do_call_raises w s c e :
  raises w (events s) c = Some e → do_call c w s = (Raise e, add s [Raised c e]).
Proof. unfold do_call. by intros ->. Qed.

Lemma parent_join (p : Path) name : parent (path_join p name) = p.
Proof. unfold parent, path_join. apply removelast_last. Qed.

(** ** The context fixture *)

(** C7.  When tracing was started and the context still says so, the
    [finally] block of the [context] fixture stops tracing without a path
    if [trace_retain_on_failure] is set and [last_failed] is not, and with
    the path traces/<sanitized nodeid>.zip under the artifacts directory
    otherwise; if that call raises, a warning is logged; then the context
    is closed, and if that raises a warning is logged; the block itself
    never raises and touches no attribute. *)
Theorem context_finally_spec (w : world) (s : state) (req : request) :
  flag s "trace_enabled" = true →
  let retain := flag s "trace_retain_on_failure" in
  let failed := flag s "last_failed" in
  let trace_path :=
    path_join (path_join (artifacts_dir w) "traces")
              (safe_filename (nodeid req) +:+ ".zip") in
  let stop :=
    tracing_stop (if retain && negb failed then None else Some trace_path) in
  let δ_stop :=
    match raises w (events s) stop with
    | None => [Returned stop]
    | Some e => [Raised stop e;
                 Logged WARNING "Failed to stop tracing for %s: %s"
                        [nodeid req; str e]]
    end in
  let δ_close :=
    match raises w (events s ++ δ_stop) context_close with
    | None => [Returned context_close]
    | Some e => [Raised context_close e;
                 Logged WARNING "Failed to close context for %s: %s"
                        [nodeid req; str e]]
    end in
  context_finally req (Some the_context) true w s
  = (Ok (), add s (δ_stop ++ δ_close)).
Proof.
  intros En. cbv zeta. unfold flag in *.
  unfold context_finally, getattr, mbind, M_bind, try_except, _trace_path,
    get_artifact_path, ask, mret, M_ret, log, emit, do_call, add.
  rewrite En. simpl.
  destruct (default false (attrs s !! "trace_retain_on_failure")),
           (default false (attrs s !! "last_failed")); simpl;
    (destruct (raises w (events s) _) as [e1|]; simpl;
     (destruct (raises w _ context_close) as [e2|] eqn:E2; simpl;
      rewrite <- ?app_assoc in *; simpl in *; rewrite ?E2; simpl;
      rewrite <- ?app_assoc; reflexivity)).
Qed.

(** Witness of C7: after a passing sample test that retains traces on
    failure, tracing stops without a path and the context closes. *)
Lemma context_finally_spec_witness :
  flag (sample_state false true) "trace_enabled" = true ∧
  context_finally (sample_request "passed") (Some the_context) true
    sample_world (sample_state false true)
  = (Ok (), add (sample_state false true)
                [Returned (tracing_stop None); Returned context_close]).
Proof.
  split; [reflexivity|].
  exact (context_finally_spec sample_world (sample_state false true)
           (sample_request "passed") eq_refl).
Defined.

(** What [context_setup] leaves on the context object when it yields. *)
Lemma context_setup_flags prefs req w s ctx started s' :
  context_setup prefs req w s = (Ok (Some (ctx, started)), s') →
  flag s' "trace_enabled" = enabled (trace prefs) ∧
  flag s' "trace_retain_on_failure" = retain_on_failure (trace prefs) ∧
  flag s' "record_video_enabled" = record (video prefs) ∧
  flag s' "keep_video_on_pass" = keep_on_pass (video prefs) ∧
  flag s' "last_failed" = false ∧
  (started = true → enabled (trace prefs) = true).
Proof.
  unfold context_setup, get_artifact_path, ensure_dir, attempt, try_except,
    setattr, mbind, M_bind, ask, mret, M_ret, do_call, raise, flag.
  simpl.
  repeat (match goal with
          | |- context [raises w ?h ?c] => destruct (raises w h c); simpl
          | |- context [record (video prefs)] =>
              destruct (record (video prefs)) eqn:?; simpl
          | |- context [enabled (trace prefs)] =>
              destruct (enabled (trace prefs)) eqn:?; simpl
          | |- (let (_, _) := ?x in _) = _ → _ => destruct x as [[] ?]; simpl
          end); intros H; simplify_eq; simpl;
    repeat (rewrite lookup_insert_eq || rewrite lookup_insert_ne by done);
    done.
Qed.

(** ** The video finalizer *)

Lemma bind_ok {A B} (m : M A) (k : A → M B) w s a s' :
  m w s = (Ok a, s') → (m ≫= k) w s = k a w s'.
Proof. unfold mbind, M_bind. by intros ->. Qed.

Lemma bind_raise {A B} (m : M A) (k : A → M B) w s e s' :
  m w s = (Raise e, s') → (m ≫= k) w s = (Raise e, s').
Proof. unfold mbind, M_bind. by intros ->. Qed.

(** The finalizer on a handle, in a world where its calls return. *)
Lemma finalize_run w s v nodeid keep attach :
  finalizer_calls_return w →
  finalize_video_artifact (Some v) nodeid keep attach w s
  = (Ok (if keep then Some (video_path_of (artifacts_dir w) nodeid) else None),
     add s (finalizer_events (artifacts_dir w) v nodeid keep attach)).
Proof.
  intros Q.
  unfold finalize_video_artifact, finalizer_events, video_path_of,
    get_artifact_path, ensure_dir, ask, mbind, M_bind, mret, M_ret, do_call, add.
  destruct keep, attach; cbv beta iota zeta; rewrite ?parent_join; simpl;
    repeat (rewrite Q by reflexivity; simpl);
    rewrite <- ?app_assoc; reflexivity.
Qed.

Lemma finalize_none w s nodeid keep attach :
  finalize_video_artifact None nodeid keep attach w s = (Ok None, s).
Proof. reflexivity. Qed.

Lemma saves_finalizer_events artifacts v nodeid keep attach :
  saves v (finalizer_events artifacts v nodeid keep attach)
  = if keep then 1 else 0.
Proof.
  unfold saves, finalizer_events.
  destruct keep, attach; simpl; rewrite ?bool_decide_eq_true_2 by done; done.
Qed.

Lemma deletes_finalizer_events artifacts v nodeid keep attach :
  deletes v (finalizer_events artifacts v nodeid keep attach) = 1.
Proof.
  unfold deletes, finalizer_events.
  destruct keep, attach; simpl; rewrite ?bool_decide_eq_true_2 by done; done.
Qed.

(** The plan of the finalizer keeps the invariant: carried out to its
    end, it persists the handle when [keep] holds and deletes it when
    not. *)
Lemma plan_persists_or_deletes artifacts v nodeid keep attach :
  let plan := finalizer_events artifacts v nodeid keep attach in
  persisted_xor_deleted v plan ∧
  (persisted v plan ↔ keep = true) ∧ (deleted v plan ↔ keep = false).
Proof.
  cbv zeta. unfold persisted_xor_deleted, persisted, deleted.
  rewrite saves_finalizer_events, deletes_finalizer_events.
  destruct keep; split; try split; try tauto; try lia;
    split; try done; intros H; try lia; try (destruct H; lia).
Qed.

Lemma sample_world_calm : finalizer_calls_return sample_world.
Proof. by intros h c _. Qed.

(** The finalizer over the environment is the finalizer above once the
    configuration exists. *)
Lemma finalize_configured resolve environ c w video nodeid keep attach s :
  Config.get_app_config resolve environ None = Ok c →
  artifacts_dir w = Config.artifacts_dir c →
  WithEnviron.finalize_video_artifact resolve environ video nodeid keep attach w s
  = finalize_video_artifact video nodeid keep attach w s.
Proof.
  intros E A.
  unfold WithEnviron.finalize_video_artifact, finalize_video_artifact,
    WithEnviron.get_artifact_path, get_artifact_path, lift_result, ask.
  rewrite E. destruct video as [v|], keep; try reflexivity.
  unfold mbind, M_bind, mret, M_ret. by rewrite A.
Qed.

(** C2, the failing run.  With the configuration in place and
    [video.save_as] raising, the finalizer asked to keep the video makes
    the videos directory, calls [save_as], and lets the exception go:
    [video.delete] is not called, so the handle is neither persisted nor
    deleted.  The teardown of [page] does not catch it either. *)
Theorem finalizer_leaks_on_failed_save :
  let w := failing (λ c, match c with video_save_as _ _ => true | _ => false end) in
  let v := Recording 1 in
  let video_path :=
    ["artifacts"; "videos"; "tests_login_test_ui.py__test_form_a_b_.webm"] in
  let finalized :=
    WithEnviron.finalize_video_artifact sample_resolve sample_environ
      (Some v) "tests/login/test_ui.py::test_form[a/b]" true true w initial in
  let torn_down :=
    page_teardown (sample_request "failed") w (sample_state false true) in
  fst finalized = Raise (Exception "boom") ∧
  events (snd finalized)
  = [Returned (mkdir ["artifacts"; "videos"]);
     Raised (video_save_as v video_path) (Exception "boom")] ∧
  saves v (events (snd finalized)) = 0 ∧
  deletes v (events (snd finalized)) = 0 ∧
  ¬ persisted_xor_deleted v (events (snd finalized)) ∧
  fst torn_down = Raise (Exception "boom") ∧
  saves v (events (snd torn_down)) = 0 ∧
  deletes v (events (snd torn_down)) = 0 ∧
  ¬ persisted_xor_deleted v (events (snd torn_down)).
Proof.
  cbv zeta. unfold persisted_xor_deleted, persisted, deleted.
  repeat match goal with |- _ ∧ _ => split end;
    try (vm_compute; reflexivity).
  - intros [[S _]|[[_ D] _]];
      [vm_compute in S; discriminate S|vm_compute in D; discriminate D].
  - intros [[S _]|[[_ D] _]];
      [vm_compute in S; discriminate S|vm_compute in D; discriminate D].
Qed.

(** ** The page fixture *)

Ltac split_calls w :=
  repeat match goal with
         | |- context [raises w ?h ?c] =>
             let e := fresh "e" in destruct (raises w h c) as [e|]; simpl
         end.

Ltac close_safe :=
  eexists; split;
  [ unfold add; simpl; rewrite <- ?app_assoc; simpl; reflexivity
  | repeat split; try reflexivity;
    unfold steps; simpl; rewrite ?elem_of_cons; auto ].

Lemma nondecreasing_cons x l :
  nondecreasing (x :: l) = true → nondecreasing l = true.
Proof. destruct l; simpl; [done|]. by intros [_ ?]%andb_true_iff. Qed.

Lemma nondecreasing_head x y l :
  nondecreasing (x :: y :: l) = true → x ≤ y.
Proof. simpl. intros [L _]%andb_true_iff. by apply Nat.leb_le. Qed.

Lemma nondecreasing_lower x y l :
  x ≤ y → nondecreasing (y :: l) = true → nondecreasing (x :: l) = true.
Proof.
  intros L. destruct l as [|z l]; simpl; [done|].
  intros [Lz ->]%andb_true_iff. apply Nat.leb_le in Lz.
  rewrite andb_true_r. apply Nat.leb_le. lia.
Qed.

Lemma nondecreasing_join lo mid hi l1 l2 :
  nondecreasing (lo :: l1 ++ [mid]) = true →
  nondecreasing (mid :: l2 ++ [hi]) = true →
  nondecreasing (lo :: (l1 ++ l2) ++ [hi]) = true.
Proof.
  revert lo. induction l1 as [|x l1 IH]; intros lo H1 H2.
  - simpl app. eapply nondecreasing_lower; [|exact H2].
    by apply nondecreasing_head in H1.
  - change (nondecreasing (lo :: x :: (l1 ++ l2) ++ [hi]) = true).
    change (nondecreasing (lo :: x :: l1 ++ [mid]) = true) in H1.
    pose proof (nondecreasing_head _ _ _ H1) as L.
    apply nondecreasing_cons in H1.
    specialize (IH x H1 H2).
    simpl. simpl in IH. rewrite IH, andb_true_r. by apply Nat.leb_le.
Qed.

Lemma nondecreasing_two x y l :
  nondecreasing (x :: y :: l) = (x <=? y) && nondecreasing (y :: l).
Proof. reflexivity. Qed.

Lemma nondecreasing_prefix l r :
  nondecreasing (l ++ r) = true → nondecreasing l = true.
Proof.
  induction l as [|x l IH]; [done|].
  destruct l as [|y l]; [done|].
  change (nondecreasing (x :: y :: l ++ r) = true
          → nondecreasing (x :: y :: l) = true).
  rewrite !nondecreasing_two, !andb_true_iff. intros [? ?]. split; [done|].
  by apply IH.
Qed.

Lemma nondecreasing_inner lo hi l :
  nondecreasing (lo :: l ++ [hi]) = true → nondecreasing l = true.
Proof. intros H%nondecreasing_cons. by apply nondecreasing_prefix in H. Qed.

Lemma steps_app δ1 δ2 : steps (δ1 ++ δ2) = steps δ1 ++ steps δ2.
Proof. unfold steps. apply omap_app. Qed.

Lemma within_app rank lo mid hi δ1 δ2 :
  within rank lo mid δ1 = true → within rank mid hi δ2 = true →
  within rank lo hi (δ1 ++ δ2) = true.
Proof.
  unfold within. rewrite steps_app, fmap_app. apply nondecreasing_join.
Qed.

Lemma within_in_order rank lo hi δ :
  within rank lo hi δ = true → in_order rank δ = true.
Proof. apply nondecreasing_inner. Qed.

Lemma within_bounds rank lo hi δ : within rank lo hi δ = true → lo ≤ hi.
Proof.
  unfold within. generalize (rank <$> steps δ). intros l. revert lo.
  induction l as [|x l IH]; intros lo H.
  - by apply nondecreasing_head in H.
  - change (nondecreasing (lo :: x :: l ++ [hi]) = true) in H.
    pose proof (nondecreasing_head _ _ _ H). apply nondecreasing_cons in H.
    apply IH in H. lia.
Qed.

Lemma within_before_video lo hi δ :
  hi < 2 → within fixture_order lo hi δ = true → before_video δ.
Proof.
  intros Hhi. unfold within, before_video. revert lo.
  induction δ as [|ev δ IH]; intros lo H; [constructor|].
  destruct (step_of ev) as [st|] eqn:E.
  - unfold steps in H. simpl in H. rewrite E in H.
    change (nondecreasing (lo :: fixture_order st
                              :: (fixture_order <$> steps δ) ++ [hi]) = true) in H.
    apply nondecreasing_cons in H. constructor; [|by eapply IH].
    intros E'. rewrite E' in E. injection E as <-.
    apply within_bounds in H. simpl in H. lia.
  - unfold steps in H. simpl in H. rewrite E in H.
    constructor; [by rewrite E|]. by eapply IH.
Qed.

Lemma capture_diagnostics_safe req w s :
  ∃ δ, capture_diagnostics req w s = (Ok (), add s δ) ∧
       within fixture_order 0 0 δ = true.
Proof.
  unfold capture_diagnostics, attach_screenshot_to_allure,
    attach_html_to_allure, get_artifact_path, ensure_dir, try_except, log,
    emit, ask, mbind, M_bind, mret, M_ret, do_call.
  simpl. split_calls w; close_safe.
Qed.

Lemma page_close_safe (handler_fmt : string) w s :
  ∃ δ, try_except (do_call page_close)
         (λ exc, log WARNING handler_fmt [str exc]) w s = (Ok (), add s δ)
       ∧ within fixture_order 1 1 δ = true ∧ ClosePage ∈ steps δ.
Proof.
  unfold try_except, log, emit, do_call. split_calls w; close_safe.
Qed.

Lemma read_video_ok w s v :
  (∀ history, raises w history page_video = None) →
  video_of_page w = Some v →
  try_except (do_call page_video;; ask video_of_page) (λ _, mret None) w s
  = (Ok (Some v), add s [Returned page_video]).
Proof.
  intros Q V. unfold try_except, ask, mbind, M_bind, do_call.
  by rewrite Q, V.
Qed.

Lemma flag_other s name other b :
  name ≠ other →
  flag {| attrs := <[other := b]> (attrs s); events := events s |} name
  = flag s name.
Proof. intros N. unfold flag. simpl. by rewrite lookup_insert_ne. Qed.

(** C1.  In the teardown of the [page] fixture with recording enabled and
    a video handle, when the calls on the video return: the finalizer is
    entered with [keep = failed_any or skipped_any or keep_on_pass] and
    [attach = failed_any or skipped_any], nothing having been done to the
    video before.  The video is saved, to videos/<sanitized nodeid>.webm
    under the artifacts directory, iff [keep]; the finalizer then returns
    that path; the file is attached iff [attach]; and when not kept the
    handle is only deleted and the finalizer returns [None]. *)
Theorem page_teardown_video (w : world) (s : state) (req : request) (v : Video) :
  finalizer_calls_return w →
  (∀ history, raises w history page_video = None) →
  video_of_page w = Some v →
  flag s "record_video_enabled" = true →
  let keep := failed_any req || skipped_any req || flag s "keep_video_on_pass" in
  let attach := failed_any req || skipped_any req in
  let video_path := video_path_of (artifacts_dir w) (nodeid req) in
  let δ := finalizer_events (artifacts_dir w) v (nodeid req) keep attach in
  ∃ before,
    let entered :=
      {| attrs := <["last_failed" := failed_any req]> (attrs s);
         events := events s ++ before |} in
    before_video before ∧
    finalize_video_artifact (Some v) (nodeid req) keep attach w entered
    = (Ok (if keep then Some video_path else None), add entered δ) ∧
    page_teardown req w s = (Ok (), add entered δ) ∧
    (Returned (video_save_as v video_path) ∈ δ ↔ keep = true) ∧
    (Returned (allure_attach_file video_path "video" WEBM) ∈ δ ↔ attach = true) ∧
    Returned (video_delete v) ∈ δ ∧
    (keep = false → δ = [Returned (video_delete v)]).
Proof.
  intros Q QV V R. cbv zeta.
  assert (∃ δ0, (if capture_needed req then capture_diagnostics req else mret ()) w s
                = (Ok (), add s δ0) ∧ before_video δ0) as (δ0 & E0 & B0).
  { destruct (capture_needed req).
    - destruct (capture_diagnostics_safe req w s) as (δ0 & E0 & B0).
      exists δ0. split; [done|]. apply (within_before_video 0 0); [lia|done].
    - exists []. split; [by rewrite add_nil|constructor]. }
  destruct (page_close_safe "Error closing page: %s" w
              (add (add s δ0) [Returned page_video])) as (δ1 & E1 & B1 & _).
  apply (within_before_video 1 1) in B1; [|lia].
  exists (δ0 ++ [Returned page_video] ++ δ1).
  set (entered := {| attrs := <["last_failed" := failed_any req]> (attrs s);
                     events := events s ++ δ0 ++ [Returned page_video] ++ δ1 |}).
  assert (page_teardown req w s
          = discard (finalize_video_artifact (Some v) (nodeid req)
                       (failed_any req || skipped_any req || flag s "keep_video_on_pass")
                       (failed_any req || skipped_any req)) w entered) as EP.
  { unfold page_teardown.
    rewrite (bind_ok _ _ _ _ _ _ E0).
    rewrite (bind_ok _ _ _ _ _ _ (read_video_ok _ _ _ QV V)).
    rewrite (bind_ok _ _ _ _ _ _ E1).
    rewrite !add_add.
    unfold setattr at 1. unfold mbind at 1, M_bind at 1. cbv beta iota.
    unfold getattr at 1. unfold mbind at 1, M_bind at 1. cbv beta iota.
    unfold getattr at 1. unfold mbind at 1, M_bind at 1. cbv beta iota.
    unfold add, flag in R |- *. cbn [attrs events].
    rewrite !lookup_insert_ne by done. rewrite R. reflexivity. }
  pose proof (finalize_run w entered v (nodeid req)
                (failed_any req || skipped_any req || flag s "keep_video_on_pass")
                (failed_any req || skipped_any req) Q) as EF.
  split; [|split; [exact EF|split]].
  - unfold before_video in *. rewrite !Forall_app. repeat split; try done.
    by repeat constructor.
  - rewrite EP. unfold discard. by rewrite (bind_ok _ _ _ _ _ _ EF).
  - unfold finalizer_events, video_path_of.
    destruct (failed_any req), (skipped_any req), (flag s "keep_video_on_pass");
      simpl; rewrite ?elem_of_cons, ?elem_of_nil;
      (repeat split; try (intros; discriminate); try tauto; try done;
       intuition congruence).
Qed.

(** Witness of C1: a passing sample test with [keep_on_pass]: the video is
    saved and deleted, and not attached. *)
Lemma page_teardown_video_witness :
  let w := sample_world in
  let s := sample_state true false in
  let req := sample_request "passed" in
  finalizer_calls_return w ∧
  (∀ history, raises w history page_video = None) ∧
  video_of_page w = Some (Recording 1) ∧
  flag s "record_video_enabled" = true ∧
  ∃ before,
    before_video before ∧
    page_teardown req w s
    = (Ok (),
       add {| attrs := <["last_failed" := false]> (attrs s);
              events := events s ++ before |}
           [Returned (mkdir ["artifacts"; "videos"]);
            Returned (video_save_as (Recording 1)
                        ["artifacts"; "videos";
                         "tests_login_test_ui.py__test_form_a_b_.webm"]);
            Returned (video_delete (Recording 1))]).
Proof.
  cbv zeta.
  split; [exact sample_world_calm|].
  split; [reflexivity|]. split; [reflexivity|]. split; [reflexivity|].
  destruct (page_teardown_video sample_world (sample_state true false)
              (sample_request "passed") (Recording 1)
              sample_world_calm (λ _, eq_refl) eq_refl eq_refl)
    as (before & B & _ & E & _).
  exists before. split; [exact B|exact E].
Defined.

(** ** The order of a teardown *)

Lemma read_video_safe w s :
  ∃ video_obj δ,
    try_except (do_call page_video;; ask video_of_page) (λ _, mret None) w s
    = (Ok video_obj, add s δ) ∧ steps δ = [].
Proof.
  unfold try_except, ask, mbind, M_bind, mret, M_ret, do_call.
  split_calls w; eexists _, _; (split; reflexivity).
Qed.

Lemma within_no_steps rank lo hi δ :
  lo ≤ hi → steps δ = [] → within rank lo hi δ = true.
Proof.
  intros L E. unfold within. rewrite E. simpl. rewrite andb_true_r.
  by apply Nat.leb_le.
Qed.

Lemma within_upper rank lo mid hi δ :
  within rank lo mid δ = true → mid ≤ hi → within rank lo hi δ = true.
Proof.
  intros W L. rewrite <- (app_nil_r δ).
  eapply within_app; [exact W|]. by apply within_no_steps.
Qed.

Lemma finalize_shape video_obj nodeid keep attach w s :
  ∃ r δ, finalize_video_artifact video_obj nodeid keep attach w s = (r, add s δ)
         ∧ within fixture_order 2 2 δ = true.
Proof.
  destruct video_obj as [v|].
  - unfold finalize_video_artifact, get_artifact_path, ensure_dir, ask,
      mbind, M_bind, mret, M_ret, do_call.
    destruct keep, attach; simpl; split_calls w;
      eexists _, _;
      (split; [unfold add; simpl; rewrite <- ?app_assoc; simpl; reflexivity
              |reflexivity]).
  - exists (Ok None), []. by rewrite add_nil.
Qed.

Lemma context_finally_shape req tracing_started w s :
  ∃ δ, context_finally req (Some the_context) tracing_started w s
       = (Ok (), add s δ)
       ∧ within fixture_order 3 4 δ = true ∧ CloseContext ∈ steps δ.
Proof.
  unfold context_finally, getattr, mbind, M_bind, try_except, _trace_path,
    get_artifact_path, ask, mret, M_ret, log, emit, do_call.
  simpl.
  destruct (default false (attrs s !! "trace_enabled")), tracing_started,
           (default false (attrs s !! "trace_retain_on_failure")),
           (default false (attrs s !! "last_failed"));
    simpl; split_calls w; close_safe.
Qed.

(** The teardown of [page]: diagnostics, then the page is closed, then
    the video is finalized; the page is always closed. *)
Lemma page_teardown_shape req w s :
  ∃ r δ last_failed,
    page_teardown req w s
    = (r, {| attrs := <["last_failed" := last_failed]> (attrs s);
             events := events s ++ δ |})
    ∧ within fixture_order 0 2 δ = true ∧ ClosePage ∈ steps δ.
Proof.
  assert (∃ δ0, (if capture_needed req then capture_diagnostics req else mret ()) w s
                = (Ok (), add s δ0) ∧ within fixture_order 0 0 δ0 = true)
    as (δ0 & E0 & B0).
  { destruct (capture_needed req); [apply capture_diagnostics_safe|].
    exists []. split; [by rewrite add_nil|reflexivity]. }
  destruct (read_video_safe w (add s δ0)) as (video_obj & δv & Ev & Sv).
  destruct (page_close_safe "Error closing page: %s" w
              (add (add s δ0) δv)) as (δ1 & E1 & B1 & C1).
  set (entered := {| attrs := <["last_failed" := failed_any req]> (attrs s);
                     events := events s ++ δ0 ++ δv ++ δ1 |}).
  assert (∃ r δ2, page_teardown req w s = (r, add entered δ2)
                  ∧ within fixture_order 2 2 δ2 = true) as (r & δ2 & E2 & B2).
  { unfold page_teardown.
    rewrite (bind_ok _ _ _ _ _ _ E0), (bind_ok _ _ _ _ _ _ Ev),
      (bind_ok _ _ _ _ _ _ E1), !add_add.
    unfold setattr at 1. unfold mbind at 1, M_bind at 1. cbv beta iota.
    unfold getattr at 1. unfold mbind at 1, M_bind at 1. cbv beta iota.
    unfold getattr at 1. unfold mbind at 1, M_bind at 1. cbv beta iota.
    unfold add at 1 2 3 4 5 6. cbn [attrs events]. fold entered.
    match goal with
    | |- context [if ?b then _ else _] => destruct b
    end.
    - match goal with
      | |- context [finalize_video_artifact ?a ?b ?c ?d] =>
          destruct (finalize_shape a b c d w entered) as (r & δ2 & E & B)
      end.
      unfold discard, mbind, M_bind. rewrite E.
      destruct r; eexists _, δ2; (split; [reflexivity|exact B]).
    - destruct video_obj as [v|].
      + rewrite bool_decide_eq_true_2 by eauto.
        destruct (finalize_shape (Some v) (nodeid req) false false w entered)
          as (r & δ2 & E & B).
        unfold discard, mbind, M_bind. rewrite E.
        destruct r; eexists _, δ2; (split; [reflexivity|exact B]).
      + rewrite bool_decide_eq_false_2 by (by intros [? ?]).
        exists (Ok ()), []. by rewrite add_nil. }
  exists r, ((δ0 ++ δv ++ δ1) ++ δ2), (failed_any req).
  split; [|split].
  - rewrite E2. unfold add, entered. simpl. by rewrite !app_assoc.
  - apply within_app with 2; [|done].
    apply within_app with 0; [done|].
    apply within_app with 1; [apply within_no_steps; [lia|done]|].
    apply within_upper with 1; [done|lia].
  - rewrite !steps_app, !elem_of_app. auto.
Qed.

(** C4, counterexample.  A failing sample test with video and tracing:
    the trace of its fixtures is not in the order of the design notes,
    the video being finalized before tracing stops and the context
    closes. *)
Lemma noted_order_fails :
  in_order noted_order
    (snd (run (fixtures_lifecycle (sample_prefs false true)
                 (sample_request "failed"))
              sample_world))
  = false.
Proof. vm_compute. reflexivity. Qed.

(** C4, amended.  The steps of every teardown come in the order: capture
    diagnostics, close the page, finalize the video, stop tracing, close
    the context; the page and the context are closed in every
    teardown, whatever raises. *)
Theorem teardown_order (req : request) (tracing_started : bool)
    (w : world) (s : state) :
  ∃ δ,
    events (snd (fixtures_teardown req tracing_started w s)) = events s ++ δ ∧
    in_order fixture_order δ = true ∧
    ClosePage ∈ steps δ ∧
    CloseContext ∈ steps δ.
Proof.
  destruct (page_teardown_shape req w s) as (r & δp & lf & Ep & Bp & Cp).
  match type of Ep with _ = (_, ?s1) =>
    destruct (context_finally_shape req tracing_started w s1)
      as (δc & Ec & Bc & Cc)
  end.
  exists (δp ++ δc). split; [|split; [|split]].
  - unfold fixtures_teardown, then_finalize, attempt, mbind, M_bind.
    rewrite Ep, Ec. destruct r; simpl; by rewrite app_assoc.
  - apply within_in_order with 0 4.
    apply within_app with 3; [|done]. by apply within_upper with 2; [|lia].
  - rewrite steps_app, elem_of_app. by left.
  - rewrite steps_app, elem_of_app. by right.
Qed.

(** The sample runs of the design notes, from setup to teardown. *)
Example failing_test_keeps_trace_and_video :
  run (fixtures_lifecycle (sample_prefs false true) (sample_request "failed"))
      sample_world
  = (Ok (),
     [Returned (mkdir ["artifacts"; "traces"]);
      Returned (mkdir ["artifacts"; "videos"]);
      Returned (browser_new_context
                  {| record_video_dir := Some ["artifacts"; "videos"];
                     record_video_size := Some (1280, 720)%N |});
      Returned (context_set_default_timeout 5000);
      Returned (context_set_default_navigation_timeout 5000);
      Returned tracing_start;
      Returned context_new_page;
      Returned (mkdir ["artifacts"; "screenshots"]);
      Returned (page_screenshot
                  ["artifacts"; "screenshots";
                   "tests_login_test_ui.py__test_form_a_b_.png"]);
      Returned (allure_attach "<png>" "screenshot-test_form[a/b]" PNG);
      Returned page_content;
      Returned (allure_attach "<html>" "dom-test_form[a/b].html" HTML);
      Returned page_video;
      Returned page_close;
      Returned (mkdir ["artifacts"; "videos"]);
      Returned (video_save_as (Recording 1)
                  ["artifacts"; "videos";
                   "tests_login_test_ui.py__test_form_a_b_.webm"]);
      Returned (allure_attach_file
                  ["artifacts"; "videos";
                   "tests_login_test_ui.py__test_form_a_b_.webm"]
                  "video" WEBM);
      Returned (video_delete (Recording 1));
      Returned (tracing_stop
                  (Some ["artifacts"; "traces";
                         "tests_login_test_ui.py__test_form_a_b_.zip"]));
      Returned context_close]).
Proof. vm_compute. reflexivity. Qed.

Example passing_test_drops_trace_and_video :
  run (fixtures_lifecycle (sample_prefs false true) (sample_request "passed"))
      sample_world
  = (Ok (),
     [Returned (mkdir ["artifacts"; "traces"]);
      Returned (mkdir ["artifacts"; "videos"]);
      Returned (browser_new_context
                  {| record_video_dir := Some ["artifacts"; "videos"];
                     record_video_size := Some (1280, 720)%N |});
      Returned (context_set_default_timeout 5000);
      Returned (context_set_default_navigation_timeout 5000);
      Returned tracing_start;
      Returned context_new_page;
      Returned page_video;
      Returned page_close;
      Returned (video_delete (Recording 1));
      Returned (tracing_stop None);
      Returned context_close]).
Proof. vm_compute. reflexivity. Qed.


(** * Further properties of the fixtures and helpers *)

(** ** File names *)

Lemma safe_filename_fixed text :
  safe_filename text = text ↔
  Forall (λ c, allowed c = true) (list_ascii_of_string text).
Proof.
  induction text as [|c text IH]; simpl.
  - split; [constructor|done].
  - rewrite safe_filename_cons, Forall_cons. split.
    + intros [= Ec Et]. split; [|by apply IH].
      destruct (allowed c) eqn:A; [done|]. subst c. discriminate A.
    + intros [A Ft]. rewrite A. f_equal. by apply IH.
Qed.

(** X1.  Sanitizing twice is sanitizing once, and a name is left as it is
    exactly when all its characters are in [A-Za-z0-9._-]. *)
Theorem safe_filename_idempotent (text : string) :
  safe_filename (safe_filename text) = safe_filename text ∧
  (safe_filename text = text ↔
   Forall (λ c, allowed c = true) (list_ascii_of_string text)).
Proof.
  split; [|apply safe_filename_fixed].
  induction text as [|c text IH]; [done|].
  rewrite !safe_filename_cons, IH, sanitized_allowed. done.
Qed.

(** ** Boolean parsing *)

Lemma lstrip_blank pad s : blank pad = true → Str.lstrip (pad +:+ s) = Str.lstrip s.
Proof.
  induction pad as [|c pad IH]; simpl; [done|].
  intros [-> B]%andb_true_iff. by apply IH.
Qed.

Lemma rstrip_blank_only pad : blank pad = true → Str.rstrip pad = "".
Proof.
  induction pad as [|c pad IH]; simpl; [done|].
  intros [-> B]%andb_true_iff. by rewrite IH.
Qed.

Lemma rstrip_blank pad s : blank pad = true → Str.rstrip (s +:+ pad) = Str.rstrip s.
Proof.
  intros B. induction s as [|c s IH]; simpl.
  - by apply rstrip_blank_only.
  - by rewrite IH.
Qed.

Lemma lstrip_app_nonblank s t :
  Str.lstrip s ≠ "" → Str.lstrip (s +:+ t) = Str.lstrip s +:+ t.
Proof.
  induction s as [|c s IH]; simpl; [done|].
  destruct (Str.isspace c); [apply IH|done].
Qed.

Lemma strip_padded l r s :
  blank l = true → blank r = true → Str.strip (l +:+ s +:+ r) = Str.strip s.
Proof.
  intros Bl Br. unfold Str.strip. rewrite lstrip_blank by done.
  destruct (decide (Str.lstrip s = "")) as [E|N].
  - rewrite E. simpl.
    assert (blank s = true) as Bs.
    { clear -E. induction s as [|c s IH]; [done|]. simpl in *.
      destruct (Str.isspace c); [by apply IH|done]. }
    assert (blank (s +:+ r) = true) as Bsr.
    { clear -Bs Br. induction s as [|c s IH]; [done|]. simpl in *.
      apply andb_true_iff in Bs as [-> Bs]. by apply IH. }
    rewrite <- (StrFacts.lstrip_rstrip (s +:+ r)).
    by rewrite (rstrip_blank_only _ Bsr).
  - rewrite lstrip_app_nonblank by done. by apply rstrip_blank.
Qed.

(** X2.  [_parse_bool] ignores whitespace around the value and the case
    of its letters. *)
Theorem parse_bool_padding_and_case (l r a b : string) :
  blank l = true → blank r = true → Str.lower a = Str.lower b →
  _parse_bool (Some (l +:+ a +:+ r)) = _parse_bool (Some b).
Proof.
  intros Bl Br E. unfold _parse_bool.
  rewrite strip_padded by done. by rewrite !StrFacts.lower_strip, E.
Qed.

Lemma parse_bool_padding_and_case_witness :
  blank (String "009" " ") = true ∧ blank (String "010" "") = true ∧
  Str.lower "YeS" = Str.lower "yes" ∧
  _parse_bool (Some (String "009" " " +:+ "YeS" +:+ String "010" ""))
  = _parse_bool (Some "yes").
Proof.
  split; [reflexivity|]. split; [reflexivity|]. split; [reflexivity|].
  exact (parse_bool_padding_and_case (String "009" " ") (String "010" "")
           "YeS" "yes" eq_refl eq_refl eq_refl).
Defined.

(** ** The page fixture, in parts *)

Lemma calls_app δ1 δ2 : calls (δ1 ++ δ2) = calls δ1 ++ calls δ2.
Proof. unfold calls. apply omap_app. Qed.

Lemma attempted_app c δ1 δ2 :
  attempted c (δ1 ++ δ2) ↔ attempted c δ1 ∨ attempted c δ2.
Proof. unfold attempted. by rewrite calls_app, elem_of_app. Qed.

Lemma steps_calls δ : steps δ = omap step_of_call (calls δ).
Proof.
  unfold steps, calls. induction δ as [|ev δ IH]; [done|].
  destruct ev as [c|c e|l f a]; csimpl; rewrite IH; done.
Qed.

Lemma attempted_step c st δ :
  attempted c δ → step_of_call c = Some st → st ∈ steps δ.
Proof.
  unfold attempted. rewrite steps_calls. intros I E.
  apply list_elem_of_omap. eauto.
Qed.

Lemma nondecreasing_ends lo hi l :
  nondecreasing (lo :: l ++ [hi]) = true → lo ≤ hi.
Proof.
  revert lo. induction l as [|x l IH]; intros lo H.
  - by apply nondecreasing_head in H.
  - change (nondecreasing (lo :: x :: l ++ [hi]) = true) in H.
    pose proof (nondecreasing_head _ _ _ H). apply nondecreasing_cons in H.
    apply IH in H. lia.
Qed.

Lemma nondecreasing_elem lo hi l x :
  nondecreasing (lo :: l ++ [hi]) = true → x ∈ l → lo ≤ x ≤ hi.
Proof.
  revert lo. induction l as [|y l IH]; intros lo W I; [by apply elem_of_nil in I|].
  change (nondecreasing (lo :: y :: l ++ [hi]) = true) in W.
  pose proof (nondecreasing_head _ _ _ W) as L.
  apply nondecreasing_cons in W.
  apply elem_of_cons in I as [->|I].
  - split; [done|]. by apply nondecreasing_ends in W.
  - specialize (IH _ W I). lia.
Qed.

Lemma within_elem rank lo hi δ st :
  within rank lo hi δ = true → st ∈ steps δ → lo ≤ rank st ≤ hi.
Proof.
  unfold within. intros W I.
  apply (nondecreasing_elem _ _ _ _ W). by apply list_elem_of_fmap_2.
Qed.

Ltac close_run :=
  eexists; split;
  [ unfold add; simpl; rewrite <- ?app_assoc; simpl; reflexivity | ].

(** X3.  The two captures are independent and harmless: whatever raises,
    [capture_diagnostics] returns, the screenshot directory is asked
    for, the page content is asked for, and each raise is answered by one
    log record. *)
Theorem capture_diagnostics_independent (req : request) (w : world) (s : state) :
  ∃ δ,
    capture_diagnostics req w s = (Ok (), add s δ) ∧
    attempted (mkdir (path_join (artifacts_dir w) "screenshots")) δ ∧
    attempted page_content δ ∧
    length (List.filter is_raised δ) = length (List.filter is_logged δ) ∧
    Forall (λ ev, ∀ lvl fmt args, ev = Logged lvl fmt args → lvl = ERROR) δ.
Proof.
  unfold capture_diagnostics, attach_screenshot_to_allure,
    attach_html_to_allure, get_artifact_path, ensure_dir, try_except, log,
    emit, ask, mbind, M_bind, mret, M_ret, do_call.
  simpl. split_calls w; close_run;
    (split; [|split; [|split]];
     [ unfold attempted, calls; simpl; rewrite ?elem_of_cons; auto
     | unfold attempted, calls; simpl; rewrite ?elem_of_cons; auto
     | reflexivity
     | repeat constructor; intros; congruence ]).
Qed.

Lemma page_teardown_parts req w s :
  ∃ δ0 video_obj δv δ1,
    (if capture_needed req then capture_diagnostics req else mret ()) w s
      = (Ok (), add s δ0) ∧
    try_except (do_call page_video;; ask video_of_page) (λ _, mret None)
      w (add s δ0) = (Ok video_obj, add (add s δ0) δv) ∧
    steps δv = [] ∧ (∀ p, ¬ attempted (tracing_stop p) δv) ∧
    within fixture_order 1 1 δ1 = true ∧ ClosePage ∈ steps δ1 ∧
    page_teardown req w s
    = finalize_page_video req video_obj
        (flag s "record_video_enabled") (flag s "keep_video_on_pass") w
        {| attrs := <["last_failed" := failed_any req]> (attrs s);
           events := events s ++ δ0 ++ δv ++ δ1 |}.
Proof.
  assert (∃ δ0, (if capture_needed req then capture_diagnostics req else mret ()) w s
                = (Ok (), add s δ0)) as (δ0 & E0).
  { destruct (capture_needed req).
    - destruct (capture_diagnostics_safe req w s) as (δ0 & E0 & _). eauto.
    - exists []. by rewrite add_nil. }
  assert (∃ video_obj δv,
            try_except (do_call page_video;; ask video_of_page) (λ _, mret None)
              w (add s δ0) = (Ok video_obj, add (add s δ0) δv)
            ∧ steps δv = [] ∧ (∀ p, ¬ attempted (tracing_stop p) δv))
    as (video_obj & δv & Ev & Sv & Nv).
  { unfold try_except, ask, mbind, M_bind, mret, M_ret, do_call.
    split_calls w; eexists _, _;
      (split; [reflexivity|split; [reflexivity|]]);
      intros p; unfold attempted, calls; simpl;
      rewrite ?elem_of_cons, elem_of_nil; intros [H|H]; done. }
  destruct (page_close_safe "Error closing page: %s" w
              (add (add s δ0) δv)) as (δ1 & E1 & B1 & C1).
  exists δ0, video_obj, δv, δ1.
  repeat (split; [done|]).
  unfold page_teardown.
  rewrite (bind_ok _ _ _ _ _ _ E0), (bind_ok _ _ _ _ _ _ Ev),
    (bind_ok _ _ _ _ _ _ E1), !add_add.
  unfold setattr at 1. unfold mbind at 1, M_bind at 1. cbv beta iota.
  unfold getattr at 1. unfold mbind at 1, M_bind at 1. cbv beta iota.
  unfold getattr at 1. unfold mbind at 1, M_bind at 1. cbv beta iota.
  unfold add, flag. cbn [attrs events].
  rewrite !lookup_insert_ne by done. reflexivity.
Qed.

Lemma add_inj s δ δ' : add s δ = add s δ' → δ = δ'.
Proof. unfold add. intros [= E]. by apply app_inv_head in E. Qed.

Lemma no_stop_within lo hi δ p :
  hi < 3 → within fixture_order lo hi δ = true → ¬ attempted (tracing_stop p) δ.
Proof.
  intros L W A. apply (attempted_step _ StopTracing) in A; [|done].
  apply (within_elem _ _ _ _ _ W) in A. simpl in A. lia.
Qed.

Lemma finalize_page_video_shape req video_obj rec keep w s :
  ∃ r δ, finalize_page_video req video_obj rec keep w s = (r, add s δ)
         ∧ within fixture_order 2 2 δ = true.
Proof.
  unfold finalize_page_video.
  assert (∀ k a, ∃ r δ,
            discard (finalize_video_artifact video_obj (nodeid req) k a) w s
            = (r, add s δ) ∧ within fixture_order 2 2 δ = true) as D.
  { intros k a.
    destruct (finalize_shape video_obj (nodeid req) k a w s) as (r & δ & E & B).
    unfold discard, mbind, M_bind. rewrite E.
    destruct r; eexists _, δ; (split; [reflexivity|exact B]). }
  destruct rec; [apply D|].
  destruct (bool_decide _); [apply D|].
  exists (Ok ()), []. by rewrite add_nil.
Qed.

Lemma capture_diagnostics_asks_content req w s :
  ∃ δ, capture_diagnostics req w s = (Ok (), add s δ) ∧ attempted page_content δ.
Proof.
  unfold capture_diagnostics, attach_screenshot_to_allure,
    attach_html_to_allure, get_artifact_path, ensure_dir, try_except, log,
    emit, ask, mbind, M_bind, mret, M_ret, do_call.
  simpl. split_calls w; close_run;
    unfold attempted, calls; simpl; rewrite ?elem_of_cons; auto.
Qed.

(** X4.  The teardown of [page] stores the outcome on the context
    object, and nothing else, whatever raises: [last_failed] becomes
    [failed_any] and every other attribute stays. *)
Theorem page_teardown_stores_outcome (req : request) (w : world) (s : state) :
  attrs (snd (page_teardown req w s))
  = <["last_failed" := failed_any req]> (attrs s).
Proof.
  destruct (page_teardown_parts req w s)
    as (δ0 & vo & δv & δ1 & _ & _ & _ & _ & _ & _ & E).
  rewrite E.
  match goal with |- context [finalize_page_video ?a ?b ?c ?d w ?st] =>
    destruct (finalize_page_video_shape a b c d w st) as (r & δ2 & E2 & _)
  end.
  by rewrite E2.
Qed.

(** X5.  Diagnostics are captured exactly when they are needed: the
    teardown of [page] asks for a screenshot or the page content iff
    some report is failed or skipped, whatever raises. *)
Theorem diagnostics_iff_needed (req : request) (w : world) (s : state) :
  ∃ δ,
    events (snd (page_teardown req w s)) = events s ++ δ ∧
    (CaptureDiagnostics ∈ steps δ ↔ capture_needed req = true) ∧
    (attempted page_content δ ↔ capture_needed req = true).
Proof.
  destruct (page_teardown_parts req w s)
    as (δ0 & vo & δv & δ1 & E0 & _ & Sv & _ & B1 & _ & E).
  match type of E with _ = finalize_page_video ?a ?b ?c ?d w ?st =>
    destruct (finalize_page_video_shape a b c d w st) as (r & δ2 & E2 & B2)
  end.
  exists (δ0 ++ δv ++ δ1 ++ δ2). split.
  { rewrite E, E2. unfold add. simpl. by rewrite <- !app_assoc. }
  assert (∀ c, step_of_call c = Some CaptureDiagnostics →
               ¬ attempted c (δv ++ δ1 ++ δ2)) as Rest.
  { intros c Ec A. apply (attempted_step _ _ _ A) in Ec.
    rewrite !steps_app, Sv, !elem_of_app in Ec. destruct Ec as [I|[I|I]].
    - by apply elem_of_nil in I.
    - apply (within_elem _ _ _ _ _ B1) in I. simpl in I. lia.
    - apply (within_elem _ _ _ _ _ B2) in I. simpl in I. lia. }
  assert (∀ st, st ∈ steps (δv ++ δ1 ++ δ2) → st ≠ CaptureDiagnostics) as RestS.
  { intros st I ->. rewrite !steps_app, Sv, !elem_of_app in I.
    destruct I as [I|[I|I]].
    - by apply elem_of_nil in I.
    - apply (within_elem _ _ _ _ _ B1) in I. simpl in I. lia.
    - apply (within_elem _ _ _ _ _ B2) in I. simpl in I. lia. }
  destruct (capture_needed req).
  - destruct (capture_diagnostics_asks_content req w s) as (δ' & E' & A).
    rewrite E0 in E'. injection E' as E'. apply app_inv_head in E'. subst δ'.
    split; split; try done; intros _.
    + rewrite steps_app, elem_of_app. left.
      by apply (attempted_step page_content).
    + apply attempted_app. by left.
  - assert (δ0 = []) as ->.
    { apply (add_inj s). rewrite add_nil. by injection E0. }
    split; split; try done; simpl.
    + intros I. by destruct (RestS _ I).
    + intros A. by destruct (Rest page_content eq_refl).
Qed.

Lemma read_video_value w s video_obj δv :
  try_except (do_call page_video;; ask video_of_page) (λ _, mret None) w s
  = (Ok video_obj, add s δv) →
  video_obj = None ∨ video_obj = video_of_page w.
Proof.
  unfold try_except, ask, mbind, M_bind, mret, M_ret, do_call.
  destruct (raises w (events s) page_video); intros [= <- _]; auto.
Qed.

Lemma before_video_parts δ0 δv δ1 :
  within fixture_order 0 0 δ0 = true → steps δv = [] →
  within fixture_order 1 1 δ1 = true →
  before_video (δ0 ++ δv ++ δ1).
Proof.
  intros B0 Sv B1. apply (within_before_video 0 1); [lia|].
  apply within_app with 0; [done|].
  apply within_app with 1; [by apply within_no_steps; [lia|]|done].
Qed.

Lemma capture_block_within req w s δ0 :
  (if capture_needed req then capture_diagnostics req else mret ()) w s
  = (Ok (), add s δ0) →
  within fixture_order 0 0 δ0 = true.
Proof.
  destruct (capture_needed req).
  - destruct (capture_diagnostics_safe req w s) as (δ' & E' & B).
    rewrite E'. intros [= E]. apply app_inv_head in E. by subst δ0.
  - intros E. assert (δ0 = []) as ->; [|done].
    apply (add_inj s). rewrite add_nil. by injection E.
Qed.

Lemma read_video_returns w s :
  (∀ history, raises w history page_video = None) →
  try_except (do_call page_video;; ask video_of_page) (λ _, mret None) w s
  = (Ok (video_of_page w), add s [Returned page_video]).
Proof.
  intros Q. unfold try_except, ask, mbind, M_bind, do_call. by rewrite Q.
Qed.

(** X6.  With recording disabled and [page.video] read, the handle that
    the page has is deleted, by one call, and is neither saved nor
    attached; a page without a handle has its video left alone.  This
    holds when the finalizer's calls return, and the teardown then
    returns. *)
Theorem unrecorded_video_is_deleted (req : request) (w : world) (s : state) :
  finalizer_calls_return w →
  (∀ history, raises w history page_video = None) →
  flag s "record_video_enabled" = false →
  ∃ before,
    before_video before ∧
    page_teardown req w s
    = (Ok (),
       add {| attrs := <["last_failed" := failed_any req]> (attrs s);
              events := events s ++ before |}
           (match video_of_page w with
            | Some v => [Returned (video_delete v)]
            | None => []
            end)).
Proof.
  intros Q QV R.
  destruct (page_teardown_parts req w s)
    as (δ0 & vo & δv & δ1 & E0 & Ev & Sv & _ & B1 & _ & E).
  rewrite (read_video_returns _ _ QV) in Ev. injection Ev as <- Ev.
  exists (δ0 ++ δv ++ δ1).
  split; [apply before_video_parts; eauto using capture_block_within|].
  rewrite E, R. unfold finalize_page_video.
  destruct (video_of_page w) as [v|].
  - rewrite bool_decide_eq_true_2 by eauto.
    unfold discard. erewrite bind_ok; [|by apply finalize_run]. reflexivity.
  - rewrite bool_decide_eq_false_2 by (by intros [? ?]).
    by rewrite add_nil.
Qed.

Lemma unrecorded_video_is_deleted_witness :
  finalizer_calls_return sample_world ∧
  (∀ history, raises sample_world history page_video = None) ∧
  flag initial "record_video_enabled" = false ∧
  ∃ before,
    before_video before ∧
    page_teardown (sample_request "failed") sample_world initial
    = (Ok (),
       add {| attrs := <["last_failed" := true]> (attrs initial);
              events := events initial ++ before |}
           [Returned (video_delete (Recording 1))]).
Proof.
  split; [exact sample_world_calm|]. split; [reflexivity|].
  split; [reflexivity|].
  exact (unrecorded_video_is_deleted (sample_request "failed") sample_world
           initial sample_world_calm (λ _, eq_refl) eq_refl).
Defined.

(** X7.  The teardown of [page] can raise only out of the video
    finalizer: when the finalizer's calls return it returns, whatever the
    screenshot, the page content, their attachment, [page.video] or
    [page.close] do. *)
Theorem page_teardown_returns (req : request) (w : world) (s : state) :
  finalizer_calls_return w → fst (page_teardown req w s) = Ok ().
Proof.
  intros Q.
  destruct (page_teardown_parts req w s)
    as (δ0 & vo & δv & δ1 & _ & _ & _ & _ & _ & _ & E).
  rewrite E. unfold finalize_page_video, discard.
  destruct vo as [v|].
  - destruct (flag s "record_video_enabled").
    + erewrite bind_ok; [|by apply finalize_run]. reflexivity.
    + rewrite bool_decide_eq_true_2 by eauto.
      erewrite bind_ok; [|by apply finalize_run]. reflexivity.
  - destruct (flag s "record_video_enabled"); [reflexivity|].
    by rewrite bool_decide_eq_false_2 by (by intros [? ?]).
Qed.

Lemma page_calls_fail_only : finalizer_calls_return
  (failing (λ c, match c with
                 | page_screenshot _ | page_content | page_video | page_close => true
                 | _ => false
                 end)).
Proof. intros h c F. simpl. by destruct c. Qed.

Lemma page_teardown_returns_witness :
  let w := failing (λ c, match c with
                         | page_screenshot _ | page_content | page_video
                         | page_close => true
                         | _ => false
                         end) in
  finalizer_calls_return w ∧
  fst (page_teardown (sample_request "failed") w (sample_state false true))
  = Ok ().
Proof.
  split; [exact page_calls_fail_only|].
  exact (page_teardown_returns (sample_request "failed") _
           (sample_state false true) page_calls_fail_only).
Defined.

(** The [finally] block of [context] after a started tracing, event by
    event. *)
Lemma context_finally_exact w s req :
  flag s "trace_enabled" = true →
  let stop :=
    tracing_stop
      (if flag s "trace_retain_on_failure" && negb (flag s "last_failed")
       then None
       else Some (path_join (path_join (artifacts_dir w) "traces")
                            (safe_filename (nodeid req) +:+ ".zip"))) in
  let δ_stop :=
    match raises w (events s) stop with
    | None => [Returned stop]
    | Some e => [Raised stop e;
                 Logged WARNING "Failed to stop tracing for %s: %s"
                        [nodeid req; str e]]
    end in
  let δ_close :=
    match raises w (events s ++ δ_stop) context_close with
    | None => [Returned context_close]
    | Some e => [Raised context_close e;
                 Logged WARNING "Failed to close context for %s: %s"
                        [nodeid req; str e]]
    end in
  context_finally req (Some the_context) true w s
  = (Ok (), add s (δ_stop ++ δ_close)).
Proof.
  intros En. cbv zeta. unfold flag in *.
  unfold context_finally, getattr, mbind, M_bind, try_except, _trace_path,
    get_artifact_path, ask, mret, M_ret, log, emit, do_call, add.
  rewrite En. simpl.
  destruct (default false (attrs s !! "trace_retain_on_failure")),
           (default false (attrs s !! "last_failed")); simpl;
    (destruct (raises w (events s) _) as [e1|]; simpl;
     (destruct (raises w _ context_close) as [e2|] eqn:E2; simpl;
      rewrite <- ?app_assoc in *; simpl in *; rewrite ?E2; simpl;
      rewrite <- ?app_assoc; reflexivity)).
Qed.

Lemma no_tracing_stop δ :
  (∀ p, ¬ attempted (tracing_stop p) δ) →
  List.filter is_tracing_stop (calls δ) = [].
Proof.
  unfold attempted. induction (calls δ) as [|c l IH]; intros N; [done|].
  simpl. destruct (is_tracing_stop c) eqn:T.
  - destruct c; try discriminate T. exfalso. eapply N. by left.
  - apply IH. intros p I. apply (N p). by right.
Qed.

(** X8.  From the teardown of [page] to the teardown of [context]: when
    tracing was started, the calls that stop tracing in the whole
    teardown are one call and no more, and that call writes the trace to
    traces/<sanitized nodeid>.zip unless traces are retained on failure
    only and no report of the test is failed, in which case it has no
    path.  Whatever raises elsewhere. *)
Theorem trace_kept_iff_failed (req : request) (w : world) (s : state) :
  flag s "trace_enabled" = true →
  let trace_path :=
    path_join (path_join (artifacts_dir w) "traces")
              (safe_filename (nodeid req) +:+ ".zip") in
  let stop :=
    tracing_stop (if flag s "trace_retain_on_failure" && negb (failed_any req)
                  then None else Some trace_path) in
  ∃ δ,
    events (snd (fixtures_teardown req true w s)) = events s ++ δ ∧
    List.filter is_tracing_stop (calls δ) = [stop].
Proof.
  intros En. cbv zeta.
  destruct (page_teardown_parts req w s)
    as (δ0 & vo & δv & δ1 & E0 & _ & Sv & Nv & B1 & _ & E).
  pose proof (capture_block_within _ _ _ _ E0) as B0.
  match type of E with _ = finalize_page_video ?a ?b ?c ?d w ?st =>
    destruct (finalize_page_video_shape a b c d w st) as (r & δ2 & E2 & B2);
    set (entered := st) in *
  end.
  rewrite E2 in E.
  assert (flag (add entered δ2) "trace_enabled" = true) as En'.
  { unfold flag, add, entered. simpl. by rewrite lookup_insert_ne. }
  pose proof (context_finally_exact w (add entered δ2) req En') as EC.
  cbv zeta in EC.
  assert (flag (add entered δ2) "trace_retain_on_failure"
          = flag s "trace_retain_on_failure") as Rt.
  { unfold flag, add, entered. simpl. by rewrite lookup_insert_ne. }
  assert (flag (add entered δ2) "last_failed" = failed_any req) as Lf.
  { unfold flag, add, entered. simpl. by rewrite lookup_insert_eq. }
  rewrite Rt, Lf in EC.
  set (stop := tracing_stop _) in *.
  set (δ_stop := match raises w (events (add entered δ2)) stop with
                 | Some e => _ | None => _ end) in *.
  set (δ_close := match raises w _ context_close with
                  | Some e => _ | None => _ end) in *.
  exists ((δ0 ++ δv ++ δ1) ++ δ2 ++ δ_stop ++ δ_close). split.
  - unfold fixtures_teardown, then_finalize, attempt, mbind, M_bind.
    rewrite E, EC. unfold add, entered.
    destruct r; simpl; by rewrite <- !app_assoc.
  - rewrite !calls_app, !List.filter_app.
    rewrite (no_tracing_stop δ0)
      by (intros p; apply (no_stop_within 0 0); [lia|done]).
    rewrite (no_tracing_stop δv) by done.
    rewrite (no_tracing_stop δ1)
      by (intros p; apply (no_stop_within 1 1); [lia|done]).
    rewrite (no_tracing_stop δ2)
      by (intros p; apply (no_stop_within 2 2); [lia|done]).
    unfold δ_stop, δ_close.
    destruct (raises w _ stop); destruct (raises w _ context_close);
      reflexivity.
Qed.

Lemma trace_kept_iff_failed_witness :
  flag (sample_state false true) "trace_enabled" = true ∧
  ∃ δ,
    events (snd (fixtures_teardown (sample_request "failed") true sample_world
                   (sample_state false true)))
    = events (sample_state false true) ++ δ ∧
    List.filter is_tracing_stop (calls δ)
    = [tracing_stop
         (Some ["artifacts"; "traces";
                "tests_login_test_ui.py__test_form_a_b_.zip"])].
Proof.
  split; [reflexivity|].
  exact (trace_kept_iff_failed (sample_request "failed") sample_world
           (sample_state false true) eq_refl).
Defined.

(** ** The context fixture, setup *)

Ltac setup_cases w prefs :=
  repeat (rewrite ?andb_false_r; simpl;
          match goal with
          | |- context [raises w ?h ?c] =>
              let e := fresh "e" in destruct (raises w h c) as [e|]; simpl
          | |- context [record (video prefs)] =>
              destruct (record (video prefs)) eqn:?; simpl
          | |- context [enabled (trace prefs)] =>
              destruct (enabled (trace prefs)) eqn:?; simpl
          end).

Ltac unfold_setup :=
  unfold context_setup, context_finally, get_artifact_path, ensure_dir,
    attempt, try_except, setattr, getattr, mbind, M_bind, ask, mret, M_ret,
    do_call, raise, log, emit, _trace_path.

(** X9.  When the [context] fixture yields, every call of its setup has
    returned, and they were, in order: the traces directory, the videos
    directory if recording, the new context (with the videos directory
    and the 1280x720 frame if recording, without otherwise), the two
    timeouts of 5000 ms, and the start of tracing if enabled.  The context
    object carries the four preferences and [last_failed = False], and
    [tracing_started] equals the [enabled] preference. *)
Theorem context_setup_yield (prefs : ArtifactPreferences) (req : request)
    (w : world) (s s' : state) (ctx : BrowserContext) (started : bool) :
  context_setup prefs req w s = (Ok (Some (ctx, started)), s') →
  started = enabled (trace prefs) ∧
  flag s' "record_video_enabled" = record (video prefs) ∧
  flag s' "keep_video_on_pass" = keep_on_pass (video prefs) ∧
  flag s' "trace_enabled" = enabled (trace prefs) ∧
  flag s' "trace_retain_on_failure" = retain_on_failure (trace prefs) ∧
  flag s' "last_failed" = false ∧
  events s' = events s ++ (Returned <$>
    [mkdir (path_join (artifacts_dir w) "traces")]
    ++ (if record (video prefs)
        then [mkdir (path_join (artifacts_dir w) "videos")] else [])
    ++ [browser_new_context
          (context_options_of (artifacts_dir w) (record (video prefs)));
        context_set_default_timeout 5000;
        context_set_default_navigation_timeout 5000]
    ++ (if enabled (trace prefs) then [tracing_start] else [])).
Proof.
  unfold_setup. unfold flag.
  setup_cases w prefs;
    intros H; simplify_eq; simpl;
    repeat (rewrite lookup_insert_eq || rewrite lookup_insert_ne by done);
    rewrite <- ?app_assoc; done.
Qed.

Lemma context_setup_yield_witness :
  let s' := snd (context_setup (sample_prefs true false)
                   (sample_request "passed") sample_world initial) in
  context_setup (sample_prefs true false) (sample_request "passed")
    sample_world initial = (Ok (Some (the_context, true)), s') ∧
  flag s' "keep_video_on_pass" = true ∧
  events s' = Returned <$>
    [mkdir ["artifacts"; "traces"]; mkdir ["artifacts"; "videos"];
     browser_new_context
       {| record_video_dir := Some ["artifacts"; "videos"];
          record_video_size := Some (1280, 720)%N |};
     context_set_default_timeout 5000;
     context_set_default_navigation_timeout 5000;
     tracing_start].
Proof.
  cbv zeta. split; [reflexivity|].
  destruct (context_setup_yield (sample_prefs true false)
              (sample_request "passed") sample_world initial _ the_context true
              eq_refl) as (_ & _ & K & _ & _ & _ & E).
  split; [exact K|exact E].
Defined.



(** ** Configuration *)

Lemma prefix_base_slash base path :
  String.prefix (base +:+ "/")
    (base +:+ (if String.prefix "/" path then path else "/" +:+ path)) = true.
Proof.
  induction base as [|c base IH].
  - destruct (String.prefix "/" path) eqn:P; [exact P|].
    simpl. by destruct path.
  - simpl. destruct (ascii_dec c c); [exact IH|congruence].
Qed.

(** X11.  An URL built from a path has the base URL, then a slash: a
    path without a leading slash gets one, and writing the slash or not
    gives the same URL.  Admin and marketing URLs alike. *)
Theorem build_url_slash (self : Config.AppConfig) (path : string) :
  String.prefix (Config.admin_base_url self +:+ "/")
                (Config.build_admin_url self path) = true ∧
  String.prefix (Config.marketing_base_url self +:+ "/")
                (Config.build_marketing_url self path) = true ∧
  (String.prefix "/" path = false →
   Config.build_admin_url self ("/" +:+ path) = Config.build_admin_url self path ∧
   Config.build_marketing_url self ("/" +:+ path)
   = Config.build_marketing_url self path).
Proof.
  unfold Config.build_admin_url, Config.build_marketing_url.
  split; [apply prefix_base_slash|]. split; [apply prefix_base_slash|].
  intros ->. simpl. by destruct path.
Qed.

Example build_url_example :
  let self := {| Config.admin_host := "app.mera.fit";
                 Config.marketing_host := "mera.fit";
                 Config.scheme := "https";
                 Config.artifacts_dir := ["artifacts"] |} in
  Config.build_admin_url self "admin/login" = "https://app.mera.fit/admin/login" ∧
  Config.build_admin_url self "/admin/login" = "https://app.mera.fit/admin/login".
Proof. split; reflexivity. Qed.

(** X12.  [get_app_config] raises exactly when there is no admin host:
    neither a non-empty [base_host] nor a non-empty [APP_BASE_HOST].
    Otherwise the admin host is [base_host] if that is non-empty and
    [APP_BASE_HOST] if not; the marketing host is [MARKETING_BASE_HOST]
    if non-empty and the admin host if not; neither host is empty; the
    scheme is [APP_SCHEME], https when unset; the artifacts directory is
    [ARTIFACTS_ROOT], artifacts when unset, resolved. *)
Theorem get_app_config_spec (resolve : string → Path)
    (environ : gmap string string) (base_host : option string) :
  match Config.get_app_config resolve environ base_host with
  | Raise _ =>
      (base_host = None ∨ base_host = Some "") ∧
      (environ !! "APP_BASE_HOST" = None ∨ environ !! "APP_BASE_HOST" = Some "")
  | Ok c =>
      Config.admin_host c ≠ "" ∧
      Config.marketing_host c ≠ "" ∧
      (∀ h, base_host = Some h → h ≠ "" → Config.admin_host c = h) ∧
      (base_host = None ∨ base_host = Some "" →
       environ !! "APP_BASE_HOST" = Some (Config.admin_host c)) ∧
      (∀ m, environ !! "MARKETING_BASE_HOST" = Some m → m ≠ "" →
            Config.marketing_host c = m) ∧
      (environ !! "MARKETING_BASE_HOST" = None ∨
       environ !! "MARKETING_BASE_HOST" = Some "" →
       Config.marketing_host c = Config.admin_host c) ∧
      Config.scheme c = default "https" (environ !! "APP_SCHEME") ∧
      Config.artifacts_dir c
      = resolve (default "artifacts" (environ !! "ARTIFACTS_ROOT"))
  end.
Proof.
  unfold Config.get_app_config, Config.py_or, Config.or_else, Config.truthy.
  destruct base_host as [[|b bs]|];
    destruct (environ !! "APP_BASE_HOST") as [[|a as']|];
    destruct (environ !! "MARKETING_BASE_HOST") as [[|m ms]|];
    simpl; repeat split; auto; try done;
    try (intros ? [= <-]; done);
    try (intros [?|?]; done);
    try (intros ? [= <-] ?; done).
Qed.

(** ** The summary of the run *)

Lemma from_pytest_failed rep :
  from_pytest rep → _is_failed rep = true ↔ outcome rep = Some "failed".
Proof.
  intros (o & -> & F & _). rewrite is_failed_spec, F. split.
  - intros [= E]. apply String.eqb_eq in E. by subst.
  - by intros [= ->].
Qed.

(** X13.  The label of a test in the summary, for reports as pytest
    builds them: it is the outcome of the call report when there is one;
    without one it is failed when setup failed and skipped otherwise.  It
    never looks at the teardown report.  A test labelled failed has
    [failed_any], and so had its diagnostics captured, even when only the
    reports of setup and call are looked at. *)
Theorem outcome_label_spec (req : request) :
  (∀ rep, rep ∈ reports req → from_pytest rep) →
  ∃ label,
    Reporting.outcome_label req = Ok label ∧
    (∀ rep, rep_call req = Some rep → outcome rep = Some label) ∧
    (rep_call req = None →
     (label = "failed" ∨ label = "skipped") ∧
     (label = "failed" ↔
      ∃ rep, rep_setup req = Some rep ∧ outcome rep = Some "failed")) ∧
    (∀ t, Reporting.outcome_label
            {| nodeid := nodeid req; name := name req;
               rep_setup := rep_setup req; rep_call := rep_call req;
               rep_teardown := t |} = Ok label) ∧
    (label = "failed" →
     capture_needed
       {| nodeid := nodeid req; name := name req;
          rep_setup := rep_setup req; rep_call := rep_call req;
          rep_teardown := None |} = true).
Proof.
  intros W.
  assert (∀ rep, rep_setup req = Some rep → from_pytest rep) as Ws.
  { intros rep E. apply W, elem_of_reports. auto. }
  assert (∀ rep, rep_call req = Some rep → from_pytest rep) as Wc.
  { intros rep E. apply W, elem_of_reports. auto. }
  unfold Reporting.outcome_label, capture_needed, failed_any, reports. simpl.
  destruct (rep_call req) as [rc|] eqn:Ec.
  - destruct (Wc rc eq_refl) as (o & Eo & Fo & So).
    exists o. rewrite Eo. simpl.
    split; [done|]. split; [by intros ? [= <-]|]. split; [done|].
    split; [done|]. intros ->.
    destruct (rep_setup req); simpl; unfold _is_failed; rewrite Fo; simpl;
      by rewrite ?orb_true_r.
  - destruct (rep_setup req) as [rs|] eqn:Es.
    + destruct (Ws rs eq_refl) as (o & Eo & Fo & So). rewrite Fo. simpl.
      destruct (String.eqb o "failed") eqn:Eq.
      * apply String.eqb_eq in Eq as ->. exists "failed".
        split; [done|]. split; [done|]. split.
        { intros _. split; [by left|]. split; [eauto|done]. }
        split; [done|]. intros _. unfold _is_failed. by rewrite Fo.
      * apply String.eqb_neq in Eq. exists "skipped".
        split; [done|]. split; [done|]. split.
        { intros _. split; [by right|]. split; [done|].
          intros (rep & [= <-] & E). congruence. }
        split; [done|]. done.
    + exists "skipped". split; [done|]. split; [done|]. split.
      { intros _. split; [by right|]. split; [done|].
        by intros (rep & E & _). }
      split; [done|]. done.
Qed.

Lemma sample_reports_from_pytest call rep :
  rep ∈ reports (sample_request call) → from_pytest rep.
Proof.
  rewrite elem_of_reports. simpl. intros [[= <-]|[[= <-]|E]]; [| |done].
  - by exists "passed".
  - by exists call.
Qed.

Lemma outcome_label_spec_witness :
  (∀ rep, rep ∈ reports (sample_request "failed") → from_pytest rep) ∧
  ∃ label, Reporting.outcome_label (sample_request "failed") = Ok label.
Proof.
  split; [apply sample_reports_from_pytest|].
  destruct (outcome_label_spec (sample_request "failed")
              (sample_reports_from_pytest "failed")) as (label & E & _).
  by exists label.
Defined.

(** X14.  In the summary every test has one marker, and the tests marked
    as skipped are those that are neither passed nor failed: the number
    of tests is the count of passed, plus the count of failed, plus the
    number of tests with any other outcome. *)
Theorem summary_counts {D} (durations : list (Reporting.runtime D)) :
  length durations
  = Reporting.passed durations + Reporting.failed_count durations
    + length (List.filter
                (λ t, bool_decide (Reporting.status_icon t = Reporting.SKIP))
                durations) ∧
  Reporting.passed durations
  = length (List.filter
              (λ t, bool_decide (Reporting.status_icon t = Reporting.PASS))
              durations) ∧
  Reporting.failed_count durations
  = length (List.filter
              (λ t, bool_decide (Reporting.status_icon t = Reporting.FAIL))
              durations).
Proof.
  unfold Reporting.passed, Reporting.failed_count, Reporting.status_icon.
  induction durations as [|t l (IH1 & IH2 & IH3)]; [done|]. simpl.
  destruct (String.eqb (Reporting.rt_outcome t) "passed") eqn:P.
  - apply String.eqb_eq in P. rewrite P. simpl. lia.
  - destruct (String.eqb (Reporting.rt_outcome t) "failed") eqn:F; simpl; lia.
Qed.

(** ** The request monitor *)

Section Monitor.
Import NetworkMonitor.

Lemma prefix_split needle hay :
  String.prefix needle hay = true ↔ ∃ b, hay = needle +:+ b.
Proof.
  revert hay. induction needle as [|c n IH]; intros hay.
  - split; [eauto|]. by destruct hay.
  - destruct hay as [|d hay]; simpl; [split; [done|by intros [b ?]]|].
    destruct (ascii_dec c d) as [<-|N].
    + rewrite IH. split; intros [b E]; exists b.
      * simpl. by rewrite E.
      * by injection E.
    + split; [done|]. intros [b [= ? _]]. done.
Qed.

Lemma contains_nil needle :
  contains needle "" = String.prefix needle "" || false.
Proof. reflexivity. Qed.

Lemma contains_cons needle c hay :
  contains needle (String c hay)
  = String.prefix needle (String c hay) || contains needle hay.
Proof. reflexivity. Qed.

(** [contains] is the substring test. *)
Lemma contains_spec needle hay :
  contains needle hay = true ↔ ∃ a b, hay = a +:+ needle +:+ b.
Proof.
  induction hay as [|c hay IH].
  - rewrite contains_nil, orb_false_r, prefix_split. split.
    + intros [b E]. by exists "", b.
    + intros (a & b & E). destruct a; [eauto|done].
  - rewrite contains_cons, orb_true_iff, prefix_split, IH. split.
    + intros [[b E]|(a & b & E)]; [by exists "", b|].
      exists (String c a), b. simpl. by rewrite E.
    + intros ([|d a] & b & E); [left; eauto|].
      right. injection E as _ E. eauto.
Qed.

Lemma on_login_request_invariant h st :
  listeners st = (if _listener_registered (monitor st) then 1 else 0) →
  let st' := on_login_request h st in
  listeners st' = 1 ∧
  _listener_registered (monitor st') = true ∧
  _handler (monitor st') = Some h.
Proof.
  unfold on_login_request. destruct (_listener_registered (monitor st)); simpl.
  - by intros ->.
  - by intros ->.
Qed.

Lemma registered_invariant hs :
  listeners (registered hs)
  = (if _listener_registered (monitor (registered hs)) then 1 else 0).
Proof.
  unfold registered. induction hs as [|h hs IH] using rev_ind; [done|].
  rewrite foldl_app. simpl.
  destruct (on_login_request_invariant h _ IH) as (-> & -> & _). done.
Qed.

End Monitor.

(** X15.  However many handlers are registered on a monitor, its
    dispatcher is given to the page once, and the handler in force is the
    last one registered. *)
Theorem listener_registered_once (hs : list NetworkMonitor.Handler)
    (h : NetworkMonitor.Handler) :
  let st := NetworkMonitor.registered (hs ++ [h]) in
  NetworkMonitor.listeners st = 1 ∧
  NetworkMonitor._listener_registered (NetworkMonitor.monitor st) = true ∧
  NetworkMonitor._handler (NetworkMonitor.monitor st) = Some h.
Proof.
  cbv zeta. unfold NetworkMonitor.registered. rewrite foldl_app. simpl.
  apply on_login_request_invariant. apply registered_invariant.
Qed.

(** X16.  After [collect_requests], whatever was registered before, the
    storage list gains the URL of every request that is a POST with
    /admin/login in its URL, once each and in the order of the requests,
    and nothing else; the other lists are left alone. *)
Theorem collect_requests_spec (hs : list NetworkMonitor.Handler)
    (storage : nat) (requests : list NetworkMonitor.Request)
    (objects : gmap nat (list string)) (old : list string) :
  objects !! storage = Some old →
  let st := NetworkMonitor.collect_requests storage
              (NetworkMonitor.registered hs) in
  let objects' := NetworkMonitor.emit_requests st requests objects in
  objects' !! storage
  = Some (old ++ (NetworkMonitor.url
                    <$> List.filter NetworkMonitor.is_login_post requests)) ∧
  ∀ other, other ≠ storage → objects' !! other = objects !! other.
Proof.
  intros E. cbv zeta.
  destruct (on_login_request_invariant (NetworkMonitor.store_url storage)
              (NetworkMonitor.registered hs) (registered_invariant hs))
    as (L & _ & H).
  fold (NetworkMonitor.collect_requests storage (NetworkMonitor.registered hs))
    in L, H.
  set (st := NetworkMonitor.collect_requests _ _) in *.
  unfold NetworkMonitor.emit_requests.
  revert objects old E. induction requests as [|r rs IH]; intros objects old E.
  - simpl. by rewrite app_nil_r.
  - simpl.
    unfold NetworkMonitor.emit_request at 2 4.
    rewrite L. simpl. unfold NetworkMonitor._handle_request. rewrite H.
    destruct (NetworkMonitor.is_login_post r) eqn:P.
    + unfold NetworkMonitor.store_url.
      destruct (IH (alter (λ l, l ++ [NetworkMonitor.url r]) storage objects)
                  (old ++ [NetworkMonitor.url r])) as (I1 & I2).
      { by rewrite lookup_alter_eq, E. }
      split.
      * rewrite I1. simpl. by rewrite <- app_assoc.
      * intros other N. rewrite I2 by done. by rewrite lookup_alter_ne.
    + by apply IH.
Qed.

Lemma collect_requests_spec_witness :
  let requests :=
    [ {| NetworkMonitor.method := "GET";
         NetworkMonitor.url := "https://app.mera.fit/admin/login" |};
      {| NetworkMonitor.method := "POST";
         NetworkMonitor.url := "https://app.mera.fit/admin/login?next=/" |};
      {| NetworkMonitor.method := "POST";
         NetworkMonitor.url := "https://app.mera.fit/api/ping" |} ] in
  let st := NetworkMonitor.collect_requests 0
              (NetworkMonitor.registered [NetworkMonitor.store_url 1]) in
  let objects : gmap nat (list string) := <[0 := []]> (<[1 := []]> ∅) in
  objects !! 0 = Some [] ∧
  NetworkMonitor.emit_requests st requests objects !! 0
  = Some ["https://app.mera.fit/admin/login?next=/"] ∧
  NetworkMonitor.emit_requests st requests objects !! 1 = Some [].
Proof.
  intros requests st objects.
  assert (objects !! 0 = Some []) as E by reflexivity.
  destruct (collect_requests_spec [NetworkMonitor.store_url 1] 0
              requests objects [] E) as [S O].
  split; [exact E|]. split; [exact S|].
  fold st in O. rewrite (O 1) by done. reflexivity.
Defined.

(** ** The video finalizer when a call raises *)

Lemma get_app_config_artifacts resolve environ base_host c :
  Config.get_app_config resolve environ base_host = Ok c →
  Config.artifacts_dir c
  = resolve (default "artifacts" (environ !! "ARTIFACTS_ROOT")).
Proof.
  unfold Config.get_app_config.
  destruct (Config.py_or _ _) as [h|]; [|done].
  destruct (Str.truthy h); [|done]. by intros [= <-].
Qed.

Lemma get_app_config_env_host resolve environ :
  match Config.get_app_config resolve environ None with
  | Ok _ => ∃ h, environ !! "APP_BASE_HOST" = Some h ∧ h ≠ ""
  | Raise _ => environ !! "APP_BASE_HOST" = None ∨
               environ !! "APP_BASE_HOST" = Some ""
  end.
Proof.
  unfold Config.get_app_config, Config.py_or, Config.truthy.
  destruct (environ !! "APP_BASE_HOST") as [[|a h]|]; simpl; eauto.
Qed.


(** X18.  [get_artifact_path] needs the admin host of the environment: it
    raises exactly when [APP_BASE_HOST] is unset or empty, and otherwise
    gives the artifacts directory ([ARTIFACTS_ROOT], artifacts when
    unset, resolved) with the type as last part.  A host given on the
    command line makes [get_app_config] return for the fixture
    [app_config], and does not change that. *)
Theorem artifact_path_needs_env_host (resolve : string → Path)
    (environ : gmap string string) (artifact_type : string) :
  match WithEnviron.get_artifact_path resolve environ artifact_type with
  | Ok path =>
      path = path_join
               (resolve (default "artifacts" (environ !! "ARTIFACTS_ROOT")))
               artifact_type ∧
      ∃ h, environ !! "APP_BASE_HOST" = Some h ∧ h ≠ ""
  | Raise _ =>
      environ !! "APP_BASE_HOST" = None ∨ environ !! "APP_BASE_HOST" = Some ""
  end ∧
  ∀ host, host ≠ "" →
    ∃ c, Config.get_app_config resolve environ (Some host) = Ok c ∧
         Config.admin_host c = host.
Proof.
  split.
  - unfold WithEnviron.get_artifact_path.
    pose proof (get_app_config_env_host resolve environ) as H.
    destruct (Config.get_app_config resolve environ None) as [c|e] eqn:E;
      [|exact H].
    split; [|exact H]. by rewrite (get_app_config_artifacts _ _ _ _ E).
  - intros host N. unfold Config.get_app_config, Config.py_or, Config.truthy.
    destruct host as [|a host]; [done|]. simpl. eauto.
Qed.

(** Without [APP_BASE_HOST], the default of [--base-url] configures the
    run and the artifact paths still fail. *)
Example artifact_path_without_env_host :
  (∃ c, Config.get_app_config sample_resolve ∅ (Some "app.mera.fit") = Ok c) ∧
  WithEnviron.get_artifact_path sample_resolve ∅ "videos"
  = Raise (Exception "APP_BASE_HOST must be set (no default admin host)").
Proof. split; [eexists|]; reflexivity. Qed.
